(** * cppbreaker: the circuit breaker state machine

    A shallow embedding of [circuit_breaker.h] / [circuit_breaker.cc]
    (namespace [cppbreaker]) and the properties of its state machine.

    Modelling conventions.
    - [uint32_t] and [uint64_t] values are integers of [Z] kept in range by
      an explicit reduction modulo [2^32] / [2^64] at every increment.
    - [std::chrono::system_clock::time_point] and [std::chrono::nanoseconds]
      are the signed tick count in nanoseconds, as an integer of [Z].
      [from_time_t(0)] is the tick count [0].  Overflow of signed time
      arithmetic is undefined behaviour in C++ and is outside the model.
    - Every method that takes [mutex_] for its whole body ([GetState],
      [beforeRequest], [afterRequest]) is one atomic step; the value read
      from [system_clock::now()] is an argument [now] of the step.
    - A [std::function] slot is [None] when it is [nullptr].  Calling an
      empty [std::function] throws [std::bad_function_call]; the methods
      that can reach such a call return an [outcome].
    - The callback [on_state_change] lives outside the library: the model
      records the calls made to it in the field [notified_]. *)

From Stdlib Require Import ZArith Lia List String Bool.
Import ListNotations.
Local Open Scope Z_scope.

(** ** Machine integers *)

Definition wrap32 (z : Z) : Z := z mod 2 ^ 32.
Definition wrap64 (z : Z) : Z := z mod 2 ^ 64.

Definition is_uint32 (z : Z) : Prop := 0 <= z < 2 ^ 32.
Definition is_uint64 (z : Z) : Prop := 0 <= z < 2 ^ 64.

(** ** Time *)

Definition time_point := Z.
Definition nanoseconds := Z.

Definition seconds (n : Z) : nanoseconds := n * 1000000000.

(** [std::chrono::system_clock::from_time_t(0)] *)
Definition zero_time : time_point := 0.

(** ** class Counts *)

Module Counts.

Record t : Type := mk {
  requests : Z;
  total_successes : Z;
  total_failures : Z;
  consecutive_successes : Z;
  consecutive_failures : Z
}.

(** The default member initialisers: every field is [0]. *)
Definition zero : t := mk 0 0 0 0 0.

Definition onRequest (c : t) : t :=
  mk (wrap32 (requests c + 1))
     (total_successes c)
     (total_failures c)
     (consecutive_successes c)
     (consecutive_failures c).

Definition onSuccess (c : t) : t :=
  mk (requests c)
     (wrap32 (total_successes c + 1))
     (total_failures c)
     (wrap32 (consecutive_successes c + 1))
     0.

Definition onFailure (c : t) : t :=
  mk (requests c)
     (total_successes c)
     (wrap32 (total_failures c + 1))
     0
     (wrap32 (consecutive_failures c + 1)).

Definition clear (c : t) : t := mk 0 0 0 0 0.

(** [operator==] *)
Definition eqb (a b : t) : bool :=
  (requests a =? requests b)
  && (total_successes a =? total_successes b)
  && (total_failures a =? total_failures b)
  && (consecutive_successes a =? consecutive_successes b)
  && (consecutive_failures a =? consecutive_failures b).

(** Every field holds a [uint32_t] value. *)
Definition wf (c : t) : Prop :=
  is_uint32 (requests c) /\ is_uint32 (total_successes c)
  /\ is_uint32 (total_failures c)
  /\ is_uint32 (consecutive_successes c)
  /\ is_uint32 (consecutive_failures c).

End Counts.

(** ** enum State *)

Inductive State : Type :=
| STATE_CLOSED
| STATE_HALF_OPEN
| STATE_OPEN.

Definition State_eqb (a b : State) : bool :=
  match a, b with
  | STATE_CLOSED, STATE_CLOSED => true
  | STATE_HALF_OPEN, STATE_HALF_OPEN => true
  | STATE_OPEN, STATE_OPEN => true
  | _, _ => false
  end.

(** The numeric value of the enumerator. *)
Definition State_value (s : State) : Z :=
  match s with
  | STATE_CLOSED => 0
  | STATE_HALF_OPEN => 1
  | STATE_OPEN => 2
  end.

(** ** struct Settings *)

(** One call of the [on_state_change] callback: [(name, from, to)]. *)
Definition StateChange : Type := string * State * State.

Record Settings : Type := mkSettings {
  name : string;
  max_requests : Z;                               (* uint32_t *)
  interval : nanoseconds;
  timeout : nanoseconds;
  ready_to_trip : option (Counts.t -> bool);      (* None is nullptr *)
  on_state_change : bool                          (* false is nullptr *)
}.

(** The default member initialisers of [Settings]. *)
Definition default_settings : Settings :=
  mkSettings EmptyString 1 0 (seconds 60) None false.

(** ** enum ResultCode

    [-0x80000000] is the value the enumerator takes once it is converted
    to the [int] that [beforeRequest] returns. *)

Definition ResultCodeOK : Z := 0.
Definition ResultCodeErrTooManyRequests : Z := - 2147483648.
Definition ResultCodeErrOpenState : Z := - 1879048192.

(** ** class CircuitBreaker *)

Record CircuitBreaker : Type := mkCircuitBreaker {
  settings_ : Settings;
  state_ : State;
  generation_ : Z;                                (* uint64_t *)
  counts_ : Counts.t;
  expiry_ : time_point;
  notified_ : list StateChange                    (* newest call first *)
}.

Definition with_settings (s : Settings) (cb : CircuitBreaker) :=
  mkCircuitBreaker s (state_ cb) (generation_ cb) (counts_ cb)
                   (expiry_ cb) (notified_ cb).
Definition with_state (s : State) (cb : CircuitBreaker) :=
  mkCircuitBreaker (settings_ cb) s (generation_ cb) (counts_ cb)
                   (expiry_ cb) (notified_ cb).
Definition with_generation (g : Z) (cb : CircuitBreaker) :=
  mkCircuitBreaker (settings_ cb) (state_ cb) g (counts_ cb)
                   (expiry_ cb) (notified_ cb).
Definition with_counts (c : Counts.t) (cb : CircuitBreaker) :=
  mkCircuitBreaker (settings_ cb) (state_ cb) (generation_ cb) c
                   (expiry_ cb) (notified_ cb).
Definition with_expiry (e : time_point) (cb : CircuitBreaker) :=
  mkCircuitBreaker (settings_ cb) (state_ cb) (generation_ cb) (counts_ cb)
                   e (notified_ cb).
Definition with_notified (l : list StateChange) (cb : CircuitBreaker) :=
  mkCircuitBreaker (settings_ cb) (state_ cb) (generation_ cb) (counts_ cb)
                   (expiry_ cb) l.

(** What a method that may call an empty [std::function] does: it returns,
    or [std::bad_function_call] leaves it; both carry the object as the
    method left it. *)
Inductive outcome : Type :=
| Done (cb : CircuitBreaker)
| BadFunctionCall (cb : CircuitBreaker).

Definition final (o : outcome) : CircuitBreaker :=
  match o with
  | Done cb => cb
  | BadFunctionCall cb => cb
  end.

Definition defaultReadyToTrip (counts : Counts.t) : bool :=
  5 <? Counts.consecutive_failures counts.

Definition toNewGeneration (cb : CircuitBreaker) (now : time_point)
  : CircuitBreaker :=
  let cb := with_generation (wrap64 (generation_ cb + 1)) cb in
  let cb := with_counts (Counts.clear (counts_ cb)) cb in
  let zero := zero_time in
  match state_ cb with
  | STATE_CLOSED =>
      if interval (settings_ cb) =? 0
      then with_expiry zero cb
      else with_expiry (now + interval (settings_ cb)) cb
  | STATE_OPEN => with_expiry (now + timeout (settings_ cb)) cb
  | STATE_HALF_OPEN => with_expiry zero cb
  end.

Definition setState (cb : CircuitBreaker) (st : State) (now : time_point)
  : CircuitBreaker :=
  if State_eqb (state_ cb) st then cb
  else
    let prev := state_ cb in
    let cb := with_state st cb in
    let cb := toNewGeneration cb now in
    if on_state_change (settings_ cb)
    then with_notified ((name (settings_ cb), prev, st) :: notified_ cb) cb
    else cb.

(** [currentState(now, &st)]: the returned generation, the state written
    through [st], and the object afterwards. *)
Definition currentState (cb : CircuitBreaker) (now : time_point)
  : Z * State * CircuitBreaker :=
  let cb :=
    match state_ cb with
    | STATE_CLOSED =>
        if negb (expiry_ cb =? 0) && (expiry_ cb <? now)
        then toNewGeneration cb now
        else cb
    | STATE_OPEN =>
        if expiry_ cb <? now
        then setState cb STATE_HALF_OPEN now
        else cb
    | STATE_HALF_OPEN => cb
    end in
  (generation_ cb, state_ cb, cb).

Definition onSuccess (cb : CircuitBreaker) (st : State) (now : time_point)
  : CircuitBreaker :=
  match st with
  | STATE_CLOSED => with_counts (Counts.onSuccess (counts_ cb)) cb
  | STATE_HALF_OPEN =>
      let cb := with_counts (Counts.onSuccess (counts_ cb)) cb in
      if max_requests (settings_ cb)
           <=? Counts.consecutive_successes (counts_ cb)
      then setState cb STATE_CLOSED now
      else cb
  | STATE_OPEN => cb
  end.

Definition onFailure (cb : CircuitBreaker) (st : State) (now : time_point)
  : outcome :=
  match st with
  | STATE_CLOSED =>
      let cb := with_counts (Counts.onFailure (counts_ cb)) cb in
      match ready_to_trip (settings_ cb) with
      | Some trip =>
          if trip (counts_ cb) then Done (setState cb STATE_OPEN now)
          else Done cb
      | None => BadFunctionCall cb
      end
  | STATE_HALF_OPEN => Done (setState cb STATE_OPEN now)
  | STATE_OPEN => Done cb
  end.

(** The constructor, run at clock reading [now].  The members start from
    their default initialisers ([generation_ = 0], zero [counts_]). *)
Definition newCircuitBreaker (st : Settings) (now : time_point)
  : CircuitBreaker :=
  let settings := st in
  let settings :=
    if max_requests settings =? 0
    then mkSettings (name settings) 1 (interval settings) (timeout settings)
                    (ready_to_trip settings) (on_state_change settings)
    else settings in
  let settings :=
    if timeout settings =? 0
    then mkSettings (name settings) (max_requests settings)
                    (interval settings) (seconds 60)
                    (ready_to_trip settings) (on_state_change settings)
    else settings in
  let settings :=
    match ready_to_trip settings with
    | None =>
        mkSettings (name settings) (max_requests settings)
                   (interval settings) (timeout settings)
                   (Some defaultReadyToTrip) (on_state_change settings)
    | Some _ => settings
    end in
  toNewGeneration
    (mkCircuitBreaker settings STATE_CLOSED 0 Counts.zero zero_time [])
    now.

Definition GetState (cb : CircuitBreaker) (now : time_point)
  : State * CircuitBreaker :=
  let '(_, st, cb) := currentState cb now in
  (st, cb).

Definition StateString (st : State) : string :=
  match st with
  | STATE_CLOSED => "close"
  | STATE_HALF_OPEN => "half open"
  | STATE_OPEN => "open"
  end.

Definition GetName (cb : CircuitBreaker) : string := name (settings_ cb).

(** [beforeRequest(&gen)]: the returned code, the value written through
    [gen], and the object afterwards. *)
Definition beforeRequest (cb : CircuitBreaker) (now : time_point)
  : Z * Z * CircuitBreaker :=
  let '(gen, st, cb) := currentState cb now in
  if State_eqb st STATE_OPEN then (ResultCodeErrOpenState, gen, cb)
  else if State_eqb st STATE_HALF_OPEN
          && (max_requests (settings_ cb) <=? Counts.requests (counts_ cb))
  then (ResultCodeErrTooManyRequests, gen, cb)
  else (ResultCodeOK, gen, with_counts (Counts.onRequest (counts_ cb)) cb).

Definition afterRequest (cb : CircuitBreaker) (now : time_point)
                        (before : Z) (success : bool) : outcome :=
  let '(generation, st, cb) := currentState cb now in
  if negb (generation =? before) then Done cb
  else if success then Done (onSuccess cb st now)
  else onFailure cb st now.

(** [Execute<Result_>(req)].  [Result_()] is the argument [default].  The
    wrapped operation acts on a world [W] of its own.  The lock is free
    while the operation runs: [others] is what the other threads did to
    the object in the meantime.  [now1] and [now2] are the clock readings
    of the two phases. *)
Inductive ExecuteResult (R W : Type) : Type :=
| Returned (ret : R * Z) (cb : CircuitBreaker) (w : W)
| Raised (cb : CircuitBreaker) (w : W).

Arguments Returned {R W} ret cb w.
Arguments Raised {R W} cb w.

Definition Execute {R W : Type} (default : R) (req : W -> (R * Z) * W)
    (cb : CircuitBreaker) (w : W)
    (now1 : time_point) (others : CircuitBreaker -> CircuitBreaker)
    (now2 : time_point) : ExecuteResult R W :=
  let '(err, generation, cb) := beforeRequest cb now1 in
  if negb (err =? ResultCodeOK) then Returned (default, err) cb w
  else
    let '(ret, w) := req w in
    match afterRequest (others cb) now2 generation (snd ret =? 0) with
    | Done cb => Returned ret cb w
    | BadFunctionCall cb => Raised cb w
    end.

Definition breaker_of {R W : Type} (r : ExecuteResult R W) : CircuitBreaker :=
  match r with
  | Returned _ cb _ => cb
  | Raised cb _ => cb
  end.

(** The helpers of the test suite: one sequential [Execute] of an
    operation that reports code [100], respectively code [0]. *)
Definition fail (cb : CircuitBreaker) (now1 now2 : time_point)
  : ExecuteResult Z unit :=
  Execute 0 (fun w => ((0, 100), w)) cb tt now1 (fun c => c) now2.

Definition succeed (cb : CircuitBreaker) (now1 now2 : time_point)
  : ExecuteResult Z unit :=
  Execute 0 (fun w => ((0, 0), w)) cb tt now1 (fun c => c) now2.

(** A run of [fail] calls, one per pair of clock readings. *)
Fixpoint fails (cb : CircuitBreaker) (nows : list (time_point * time_point))
  : CircuitBreaker :=
  match nows with
  | [] => cb
  | (now1, now2) :: rest => fails (breaker_of (fail cb now1 now2)) rest
  end.

(** Admission attempts in a row, none of them reported yet: the codes
    and tokens handed out, and the object afterwards. *)
Fixpoint beforeRequests (cb : CircuitBreaker) (nows : list time_point)
  : list (Z * Z) * CircuitBreaker :=
  match nows with
  | [] => ([], cb)
  | now :: rest =>
      let '(err, gen, cb) := beforeRequest cb now in
      let '(out, cb) := beforeRequests cb rest in
      ((err, gen) :: out, cb)
  end.

(** ** The breaker under concurrent callers

    Each thread inside [Execute] performs [beforeRequest], runs its
    operation without the lock, then performs [afterRequest] with the token
    it was given.  A state of the whole system is the object together with
    the tokens of the accepted calls that have not reported yet. *)

Inductive Call : Type :=
| CallBefore (now : time_point)
| CallAfter (now : time_point) (token : Z) (success : bool)
| CallGetState (now : time_point).

Record System : Type := mkSystem {
  breaker : CircuitBreaker;
  in_flight : list Z
}.

Fixpoint remove_first (x : Z) (l : list Z) : list Z :=
  match l with
  | [] => []
  | y :: l' => if x =? y then l' else y :: remove_first x l'
  end.

(** One atomic call.  [None]: no accepted call holds the token. *)
Definition step (s : System) (c : Call) : option System :=
  match c with
  | CallBefore now =>
      let '(err, gen, cb) := beforeRequest (breaker s) now in
      if err =? ResultCodeOK
      then Some (mkSystem cb (gen :: in_flight s))
      else Some (mkSystem cb (in_flight s))
  | CallAfter now token success =>
      if existsb (Z.eqb token) (in_flight s)
      then Some (mkSystem
                   (final (afterRequest (breaker s) now token success))
                   (remove_first token (in_flight s)))
      else None
  | CallGetState now =>
      Some (mkSystem (snd (GetState (breaker s) now)) (in_flight s))
  end.

Fixpoint run (s : System) (calls : list Call) : option System :=
  match calls with
  | [] => Some s
  | c :: rest =>
      match step s c with
      | Some s' => run s' rest
      | None => None
      end
  end.

(** The system right after the constructor ran. *)
Definition boot (st : Settings) (now : time_point) : System :=
  mkSystem (newCircuitBreaker st now) [].

(** The states the breaker passes through before each call of a run. *)
Fixpoint visited (s : System) (calls : list Call) : list System :=
  match calls with
  | [] => []
  | c :: rest =>
      s :: match step s c with
           | Some s' => visited s' rest
           | None => []
           end
  end.

(** ** Concrete settings and breakers used as inputs below *)

(** Default settings but a negative [interval] of one nanosecond. *)
Definition negative_interval : Settings :=
  mkSettings EmptyString 1 (- 1) (seconds 60) None false.

(** Default settings but a negative [timeout] of one second. *)
Definition negative_timeout : Settings :=
  mkSettings EmptyString 1 0 (seconds (- 1)) None false.

(** Six failing calls, all at clock reading [100]. *)
Definition six_at_100 : list (time_point * time_point) :=
  [(100, 100); (100, 100); (100, 100); (100, 100); (100, 100); (100, 100)].

(** A breaker waiting in Half-Open for its single trial call. *)
Definition half_open_breaker : CircuitBreaker :=
  mkCircuitBreaker
    (mkSettings EmptyString 1 0 (seconds 60) (Some defaultReadyToTrip) false)
    STATE_HALF_OPEN 3 (Counts.mk 1 0 0 0 0) 0 [].

(** An operation that counts its invocations in the world and reports
    the given code. *)
Definition counting_op (code : Z) (calls : nat) : Z * Z * nat :=
  ((42, code), S calls).

(** [CallBefore]? *)
Definition is_before (c : Call) : bool :=
  match c with
  | CallBefore _ => true
  | _ => false
  end.

(** How a method moves the accounting epoch: it keeps generation and
    counts, or it starts the next generation with cleared counts. *)
Inductive evolves (cb cb' : CircuitBreaker) : Prop :=
| evolves_same :
    generation_ cb' = generation_ cb -> counts_ cb' = counts_ cb ->
    evolves cb cb'
| evolves_new :
    generation_ cb' = wrap64 (generation_ cb + 1) ->
    counts_ cb' = Counts.zero ->
    evolves cb cb'.


Definition one_streak (c : Counts.t) : Prop :=
  (Counts.consecutive_successes c <> 0 /\ Counts.consecutive_failures c = 0)
  \/ (Counts.consecutive_successes c = 0
      /\ Counts.consecutive_failures c <> 0)
  \/ (Counts.consecutive_successes c = 0
      /\ Counts.consecutive_failures c = 0).


(** The number of accepted calls of generation [g] still in flight. *)
Definition pending (g : Z) (tokens : list Z) : Z :=
  Z.of_nat (count_occ Z.eq_dec tokens g).






(** The clock readings of a run of calls stay inside the counting window
    of a Closed breaker: the window is unbounded (zero expiry) or no
    reading is past the expiry. *)
Definition within_window (cb : CircuitBreaker)
    (nows : list (time_point * time_point)) : Prop :=
  expiry_ cb = 0
  \/ Forall (fun p => fst p <= expiry_ cb /\ snd p <= expiry_ cb) nows.

(** Breakers given field by field. *)
Definition closed_expired : CircuitBreaker :=
  mkCircuitBreaker default_settings STATE_CLOSED 7 (Counts.mk 3 1 2 0 2)
                   100 [].

Definition open_expired : CircuitBreaker :=
  mkCircuitBreaker default_settings STATE_OPEN 7 (Counts.mk 0 0 0 0 0)
                   100 [].

Definition half_open_idle : CircuitBreaker :=
  mkCircuitBreaker default_settings STATE_HALF_OPEN 7 (Counts.mk 1 0 0 0 0)
                   0 [].

Definition open_waiting : CircuitBreaker :=
  mkCircuitBreaker default_settings STATE_OPEN 4 Counts.zero 100 [].

Definition half_open_three : CircuitBreaker :=
  mkCircuitBreaker
    (mkSettings EmptyString 3 0 (seconds 60) (Some defaultReadyToTrip) false)
    STATE_HALF_OPEN 5 Counts.zero 0 [].

Definition closed_second_generation : CircuitBreaker :=
  mkCircuitBreaker default_settings STATE_CLOSED 2 (Counts.mk 1 0 0 0 0)
                   0 [].

(** The steps of [TestDefaultCircuitBreaker], with the clock reading of
    each call written out (the test moves [expiry_] back instead of
    waiting). *)
Definition default_after_5_failures : CircuitBreaker :=
  fails (newCircuitBreaker default_settings 0)
        [(1, 1); (2, 2); (3, 3); (4, 4); (5, 5)].

Definition default_after_success : CircuitBreaker :=
  breaker_of (succeed default_after_5_failures 6 6).

Definition default_after_6th_failure : CircuitBreaker :=
  breaker_of (fail default_after_success 7 7).

Definition default_tripped : CircuitBreaker :=
  fails default_after_6th_failure
        [(8, 8); (9, 9); (10, 10); (11, 11); (12, 12)].

Definition default_half_open : CircuitBreaker :=
  snd (GetState default_tripped (12 + seconds 60 + 1)).

Definition default_reopened : CircuitBreaker :=
  breaker_of (fail default_half_open (20 + seconds 60) (21 + seconds 60)).

Definition default_half_open_again : CircuitBreaker :=
  snd (GetState default_reopened (22 + seconds 120)).

Definition default_recovered : CircuitBreaker :=
  breaker_of (succeed default_half_open_again (23 + seconds 120)
                      (24 + seconds 120)).

(** ** Further notions used by the properties of whole runs *)

(** The clock reading of a call. *)
Definition call_time (c : Call) : time_point :=
  match c with
  | CallBefore now => now
  | CallAfter now _ _ => now
  | CallGetState now => now
  end.

(** The arrows of the state diagram: the pairs [(from, to)] that
    [setState] is asked to perform by [currentState], [onSuccess] and
    [onFailure]. *)
Definition legal_change (from to : State) : bool :=
  match from, to with
  | STATE_CLOSED, STATE_OPEN => true
  | STATE_OPEN, STATE_HALF_OPEN => true
  | STATE_HALF_OPEN, STATE_OPEN => true
  | STATE_HALF_OPEN, STATE_CLOSED => true
  | _, _ => false
  end.

(** A run of [succeed] calls, one per pair of clock readings. *)
Fixpoint succeeds (cb : CircuitBreaker)
    (nows : list (time_point * time_point)) : CircuitBreaker :=
  match nows with
  | [] => cb
  | (now1, now2) :: rest => succeeds (breaker_of (succeed cb now1 now2)) rest
  end.

(** [pseudoSleep(cb, period)] of the test suite: a non-zero expiry is
    moved back by [period]. *)
Definition pseudoSleep (cb : CircuitBreaker) (period : nanoseconds)
  : CircuitBreaker :=
  if negb (expiry_ cb =? 0)
  then with_expiry (expiry_ cb + (- 1) * period) cb
  else cb.

(** [newCounts] of the test suite. *)
Definition newCounts (requests total_successes total_failures
                      consecutive_successes consecutive_failures : Z)
  : Counts.t :=
  Counts.mk requests total_successes total_failures
            consecutive_successes consecutive_failures.

(** The notifications sent so far (newest first) form a path of the state
    diagram that starts in Closed and ends in state [cur]. *)
Fixpoint chained (cur : State) (log : list StateChange) : Prop :=
  match log with
  | [] => cur = STATE_CLOSED
  | (_, from, to) :: rest => to = cur /\ chained from rest
  end.

(** What an installed [on_state_change] callback has been told: only
    arrows of the diagram, under the configured name, one after the other
    up to the current state. *)
Definition diagram_path (cb : CircuitBreaker) : Prop :=
  on_state_change (settings_ cb) = true
  /\ Forall (fun change : StateChange =>
               fst (fst change) = name (settings_ cb)
               /\ legal_change (snd (fst change)) (snd change) = true)
            (notified_ cb)
  /\ chained (state_ cb) (notified_ cb).

(** Settings whose trip predicate trips at the first failure and which
    install a notification callback. *)
Definition eager_settings : Settings :=
  mkSettings "cb" 1 0 (seconds 60) (Some (fun _ => true)) true.

(** The generation counter leaves room for the two increments one call
    can make. *)
Definition generation_unsaturated (s : System) : Prop :=
  generation_ (breaker s) < 2 ^ 64 - 2.

(** What holds of a breaker and the tokens in flight while it is
    Half-Open: no expiry, no failure tallied, every success part of the
    streak, and the trial calls let in so far -- in flight or reported --
    within [max_requests]. *)
Definition trial_cap (cb : CircuitBreaker) (tokens : list Z) : Prop :=
  0 <= generation_ cb
  /\ Forall (fun token => token <= generation_ cb) tokens
  /\ (state_ cb = STATE_HALF_OPEN ->
      expiry_ cb = 0
      /\ Counts.total_failures (counts_ cb) = 0
      /\ Counts.consecutive_failures (counts_ cb) = 0
      /\ 0 <= Counts.total_successes (counts_ cb)
      /\ Counts.consecutive_successes (counts_ cb)
         = Counts.total_successes (counts_ cb)
      /\ Counts.total_successes (counts_ cb) < max_requests (settings_ cb)
      /\ Counts.total_successes (counts_ cb)
           + pending (generation_ cb) tokens
         <= Counts.requests (counts_ cb)
      /\ Counts.requests (counts_ cb) <= max_requests (settings_ cb)).

(** Kinds of calls, and how many calls of a kind a run holds. *)
Definition is_after (c : Call) : bool :=
  match c with
  | CallAfter _ _ _ => true
  | _ => false
  end.

Definition reports_failure (c : Call) : bool :=
  match c with
  | CallAfter _ _ false => true
  | _ => false
  end.

Definition count_calls (kind : Call -> bool) (calls : list Call) : Z :=
  Z.of_nat (List.length (filter kind calls)).

(** * Properties *)

(** ** Basic facts *)

Arguments wrap32 : simpl never.
Arguments wrap64 : simpl never.

(** Symbolic execution of the methods on an object given field by field. *)
Ltac run_breaker :=
  cbv beta iota zeta delta
    [currentState onSuccess onFailure setState toNewGeneration
     with_settings with_state with_generation with_counts with_expiry
     with_notified settings_ state_ generation_ counts_ expiry_ notified_
     State_eqb negb andb final zero_time
     Counts.clear Counts.onRequest Counts.onSuccess Counts.onFailure
     Counts.zero Counts.requests Counts.total_successes
     Counts.total_failures Counts.consecutive_successes
     Counts.consecutive_failures].

Ltac split_ifs :=
  repeat match goal with
         | |- context [if ?b then _ else _] => destruct b eqn:?
         end.

Lemma State_eqb_eq : forall a b, State_eqb a b = true <-> a = b.
Proof. intros [] []; simpl; split; congruence. Qed.

Lemma wrap32_small : forall z, 0 <= z < 2 ^ 32 -> wrap32 z = z.
Proof. intros z Hz. unfold wrap32. apply Z.mod_small. exact Hz. Qed.

Lemma wrap64_small : forall z, 0 <= z < 2 ^ 64 -> wrap64 z = z.
Proof. intros z Hz. unfold wrap64. apply Z.mod_small. exact Hz. Qed.

Lemma wrap32_range : forall z, is_uint32 (wrap32 z).
Proof. intro z. unfold is_uint32, wrap32. apply Z.mod_pos_bound. lia. Qed.

Lemma wrap64_range : forall z, is_uint64 (wrap64 z).
Proof. intro z. unfold is_uint64, wrap64. apply Z.mod_pos_bound. lia. Qed.

Lemma toNewGeneration_settings : forall cb now,
  settings_ (toNewGeneration cb now) = settings_ cb.
Proof.
  intros cb now. unfold toNewGeneration. simpl.
  destruct (state_ cb); split_ifs; reflexivity.
Qed.

Lemma setState_settings : forall cb st now,
  settings_ (setState cb st now) = settings_ cb.
Proof.
  intros cb st now. unfold setState.
  destruct (State_eqb (state_ cb) st); [reflexivity|].
  destruct (on_state_change _); simpl; rewrite toNewGeneration_settings;
    reflexivity.
Qed.

Lemma currentState_settings : forall cb now,
  settings_ (snd (currentState cb now)) = settings_ cb.
Proof.
  intros cb now. unfold currentState. simpl.
  destruct (state_ cb); split_ifs;
    rewrite ?toNewGeneration_settings, ?setState_settings; reflexivity.
Qed.

Lemma currentState_fst : forall cb now,
  fst (currentState cb now)
  = (generation_ (snd (currentState cb now)),
     state_ (snd (currentState cb now))).
Proof. intros cb now. reflexivity. Qed.

Lemma currentState_eq : forall cb now gen st cb1,
  currentState cb now = (gen, st, cb1) ->
  gen = generation_ cb1 /\ st = state_ cb1
  /\ settings_ cb1 = settings_ cb.
Proof.
  intros cb now gen st cb1 H.
  pose proof (currentState_fst cb now) as Hf.
  pose proof (currentState_settings cb now) as Hs.
  rewrite H in Hf, Hs. simpl in Hf, Hs.
  inversion Hf. auto.
Qed.

Lemma beforeRequest_settings : forall cb now,
  settings_ (snd (beforeRequest cb now)) = settings_ cb.
Proof.
  intros cb now. unfold beforeRequest.
  destruct (currentState cb now) as [[gen st] cb1] eqn:E.
  apply currentState_eq in E. destruct E as (_ & _ & Hs).
  split_ifs; simpl; exact Hs.
Qed.

(** *** The constructor *)

Lemma newCircuitBreaker_fields : forall st now,
  let cb := newCircuitBreaker st now in
  max_requests (settings_ cb)
  = (if max_requests st =? 0 then 1 else max_requests st)
  /\ timeout (settings_ cb)
     = (if timeout st =? 0 then seconds 60 else timeout st)
  /\ ready_to_trip (settings_ cb)
     = match ready_to_trip st with
       | None => Some defaultReadyToTrip
       | Some trip => Some trip
       end
  /\ name (settings_ cb) = name st
  /\ interval (settings_ cb) = interval st
  /\ on_state_change (settings_ cb) = on_state_change st
  /\ state_ cb = STATE_CLOSED
  /\ counts_ cb = Counts.zero
  /\ generation_ cb = 1
  /\ expiry_ cb = (if interval st =? 0 then zero_time else now + interval st)
  /\ notified_ cb = [].
Proof.
  intros st now. destruct st as [n m i t r o]. unfold newCircuitBreaker.
  simpl. destruct (m =? 0); simpl; destruct (t =? 0); simpl;
    destruct r; simpl; unfold toNewGeneration; simpl;
    destruct (i =? 0); simpl; repeat split; reflexivity.
Qed.

(** C8.  A breaker constructed from the default [Settings] has
    [max_requests = 1], [interval = 0], [timeout = 60 s], the default trip
    predicate installed, no notification callback, state Closed (also as
    [GetState] reports it at any later clock reading), zero counts and the
    zero expiry.  For arbitrary settings the constructor replaces
    [max_requests = 0] by [1], [timeout = 0] by 60 seconds and an empty
    [ready_to_trip] by the default predicate, and keeps everything else. *)
Theorem newCircuitBreaker_defaults :
  (forall now,
      newCircuitBreaker default_settings now
      = mkCircuitBreaker
          (mkSettings EmptyString 1 0 60000000000
                      (Some defaultReadyToTrip) false)
          STATE_CLOSED 1 (Counts.mk 0 0 0 0 0) 0 []
      /\ forall later,
          fst (GetState (newCircuitBreaker default_settings now) later)
          = STATE_CLOSED)
  /\ (forall st now,
         let cb := newCircuitBreaker st now in
         max_requests (settings_ cb)
         = (if max_requests st =? 0 then 1 else max_requests st)
         /\ timeout (settings_ cb)
            = (if timeout st =? 0 then seconds 60 else timeout st)
         /\ ready_to_trip (settings_ cb)
            = match ready_to_trip st with
              | None => Some defaultReadyToTrip
              | Some trip => Some trip
              end
         /\ name (settings_ cb) = name st
         /\ interval (settings_ cb) = interval st
         /\ on_state_change (settings_ cb) = on_state_change st
         /\ state_ cb = STATE_CLOSED
         /\ counts_ cb = Counts.zero
         /\ generation_ cb = 1
         /\ expiry_ cb
            = (if interval st =? 0 then zero_time else now + interval st)
         /\ notified_ cb = []).
Proof.
  split.
  - intro now. split; [reflexivity | intro later; reflexivity].
  - exact newCircuitBreaker_fields.
Qed.

(** *** Time-driven transitions *)

Lemma currentState_unchanged : forall cb now,
  (state_ cb = STATE_CLOSED /\ (expiry_ cb = 0 \/ now <= expiry_ cb))
  \/ (state_ cb = STATE_OPEN /\ now <= expiry_ cb)
  \/ state_ cb = STATE_HALF_OPEN ->
  currentState cb now = (generation_ cb, state_ cb, cb).
Proof.
  intros cb now H. unfold currentState.
  destruct H as [[Hs He] | [[Hs He] | Hs]]; rewrite Hs.
  - destruct (expiry_ cb =? 0) eqn:E0; simpl.
    + rewrite Hs. reflexivity.
    + destruct (expiry_ cb <? now) eqn:E1; [|rewrite Hs; reflexivity].
      apply Z.eqb_neq in E0. apply Z.ltb_lt in E1. lia.
  - destruct (expiry_ cb <? now) eqn:E1; [|rewrite Hs; reflexivity].
    apply Z.ltb_lt in E1. lia.
  - rewrite Hs. reflexivity.
Qed.

(** C4.  [currentState(now)]: a Closed breaker whose expiry is non-zero and
    earlier than [now] starts a new generation (generation incremented as a
    [uint64_t], counts cleared), stays Closed and gets the expiry
    [now + interval], or the zero timestamp when [interval] is [0]; an Open
    breaker whose expiry is earlier than [now] becomes Half-Open with the
    zero expiry; a Half-Open breaker is left as it is. *)
Theorem currentState_time_driven : forall cb now,
  (state_ cb = STATE_CLOSED -> expiry_ cb <> 0 -> expiry_ cb < now ->
   currentState cb now
   = (wrap64 (generation_ cb + 1), STATE_CLOSED,
      mkCircuitBreaker (settings_ cb) STATE_CLOSED
        (wrap64 (generation_ cb + 1)) Counts.zero
        (if interval (settings_ cb) =? 0 then zero_time
         else now + interval (settings_ cb))
        (notified_ cb)))
  /\ (state_ cb = STATE_OPEN -> expiry_ cb < now ->
      currentState cb now
      = (wrap64 (generation_ cb + 1), STATE_HALF_OPEN,
         mkCircuitBreaker (settings_ cb) STATE_HALF_OPEN
           (wrap64 (generation_ cb + 1)) Counts.zero zero_time
           (if on_state_change (settings_ cb)
            then (name (settings_ cb), STATE_OPEN, STATE_HALF_OPEN)
                   :: notified_ cb
            else notified_ cb)))
  /\ (state_ cb = STATE_HALF_OPEN ->
      currentState cb now = (generation_ cb, STATE_HALF_OPEN, cb))
  /\ (0 <= generation_ cb < 2 ^ 64 - 1 ->
      wrap64 (generation_ cb + 1) = generation_ cb + 1).
Proof.
  intros cb now. destruct cb as [s st g c e n]. simpl.
  repeat split.
  - intros -> He Hlt. unfold currentState. simpl.
    apply Z.eqb_neq in He. apply Z.ltb_lt in Hlt. rewrite He, Hlt. simpl.
    unfold toNewGeneration. simpl.
    destruct (interval s =? 0); reflexivity.
  - intros -> Hlt. unfold currentState. simpl.
    apply Z.ltb_lt in Hlt. rewrite Hlt. unfold setState. simpl.
    destruct (on_state_change s); reflexivity.
  - intros ->. reflexivity.
  - intro Hg. apply wrap64_small. lia.
Qed.

Lemma currentState_time_driven_witness :
  currentState closed_expired 101
  = (8, STATE_CLOSED,
     mkCircuitBreaker default_settings STATE_CLOSED 8 Counts.zero 0 [])
  /\ currentState open_expired 101
     = (8, STATE_HALF_OPEN,
        mkCircuitBreaker default_settings STATE_HALF_OPEN 8 Counts.zero 0 [])
  /\ currentState half_open_idle 101 = (7, STATE_HALF_OPEN, half_open_idle).
Proof.
  split; [|split].
  - apply (currentState_time_driven closed_expired 101); [reflexivity | | ];
      simpl; lia.
  - apply (currentState_time_driven open_expired 101);
      [reflexivity | simpl; lia].
  - apply (currentState_time_driven half_open_idle 101). reflexivity.
Defined.

(** *** Phase 1: admission *)

Lemma beforeRequest_cases : forall cb now gen st cb1,
  currentState cb now = (gen, st, cb1) ->
  beforeRequest cb now
  = match st with
    | STATE_OPEN => (ResultCodeErrOpenState, gen, cb1)
    | STATE_HALF_OPEN =>
        if max_requests (settings_ cb1) <=? Counts.requests (counts_ cb1)
        then (ResultCodeErrTooManyRequests, gen, cb1)
        else (ResultCodeOK, gen,
              with_counts (Counts.onRequest (counts_ cb1)) cb1)
    | STATE_CLOSED =>
        (ResultCodeOK, gen, with_counts (Counts.onRequest (counts_ cb1)) cb1)
    end.
Proof.
  intros cb now gen st cb1 H. unfold beforeRequest. rewrite H.
  destruct st; simpl; reflexivity.
Qed.

(** Admissions in a row inside one Half-Open generation: the first
    [max_requests - requests] are accepted, the others hit the quota. *)
Lemma beforeRequests_half_open : forall nows cb,
  state_ cb = STATE_HALF_OPEN ->
  0 <= Counts.requests (counts_ cb) <= max_requests (settings_ cb) ->
  max_requests (settings_ cb) < 2 ^ 32 ->
  let room :=
    Z.to_nat (max_requests (settings_ cb) - Counts.requests (counts_ cb)) in
  fst (beforeRequests cb nows)
  = repeat (ResultCodeOK, generation_ cb) (Nat.min (List.length nows) room)
    ++ repeat (ResultCodeErrTooManyRequests, generation_ cb)
              (List.length nows - room)
  /\ state_ (snd (beforeRequests cb nows)) = STATE_HALF_OPEN
  /\ generation_ (snd (beforeRequests cb nows)) = generation_ cb.
Proof.
  induction nows as [|now rest IH]; intros cb Hst Hr Hm; cbv zeta.
  - simpl. auto.
  - cbn [beforeRequests].
    rewrite (beforeRequest_cases cb now (generation_ cb) (state_ cb) cb)
      by (apply currentState_unchanged; auto).
    rewrite Hst.
    destruct (max_requests (settings_ cb) <=? Counts.requests (counts_ cb))
      eqn:E.
    + apply Z.leb_le in E.
      specialize (IH cb Hst Hr Hm). cbv zeta in IH.
      destruct (beforeRequests cb rest) as [out cb'] eqn:Er.
      simpl in IH. destruct IH as (IH1 & IH2 & IH3).
      assert (Hroom : Z.to_nat (max_requests (settings_ cb)
                                - Counts.requests (counts_ cb)) = 0%nat)
        by lia.
      rewrite Hroom in *. cbn [fst snd].
      rewrite IH1. rewrite !Nat.min_0_r, !Nat.sub_0_r. simpl. auto.
    + apply Z.leb_gt in E.
      remember (with_counts (Counts.onRequest (counts_ cb)) cb) as cb2
        eqn:Hcb2.
      assert (Hreq : Counts.requests (counts_ cb2)
                     = Counts.requests (counts_ cb) + 1).
      { subst cb2. simpl. apply wrap32_small. lia. }
      assert (Hset2 : settings_ cb2 = settings_ cb) by (subst; reflexivity).
      assert (Hgen2 : generation_ cb2 = generation_ cb)
        by (subst; reflexivity).
      assert (Hst2 : state_ cb2 = STATE_HALF_OPEN) by (subst; exact Hst).
      assert (Hr2 : 0 <= Counts.requests (counts_ cb2)
                    <= max_requests (settings_ cb2)).
      { rewrite Hreq, Hset2. lia. }
      assert (Hm2 : max_requests (settings_ cb2) < 2 ^ 32)
        by (rewrite Hset2; exact Hm).
      specialize (IH cb2 Hst2 Hr2 Hm2). cbv zeta in IH.
      destruct (beforeRequests cb2 rest) as [out cb'] eqn:Er.
      cbn [fst snd] in IH. destruct IH as (IH1 & IH2 & IH3).
      cbn [fst snd]. rewrite IH1.
      rewrite Hreq, Hset2, Hgen2.
      assert (Hroom : Z.to_nat (max_requests (settings_ cb)
                                - Counts.requests (counts_ cb))
                      = S (Z.to_nat (max_requests (settings_ cb)
                                     - (Counts.requests (counts_ cb) + 1))))
        by lia.
      rewrite Hroom. simpl. rewrite IH3, Hgen2. auto.
Qed.

(** C1.  [beforeRequest], relative to what [currentState(now)] left: in
    state Open it returns [ErrOpenState] and the object is as
    [currentState] left it; in state Half-Open with
    [requests >= max_requests] it returns [ErrTooManyRequests], again with
    nothing changed; otherwise it returns OK, adds one to [requests] (a
    [uint32_t] increment) and changes nothing else; the token is the
    current generation in every case.  Hence in a Half-Open generation
    that starts with [requests = 0], of [max_requests + 1] admission
    attempts in a row the first [max_requests] are accepted and the last
    is rejected with the quota code. *)
Theorem beforeRequest_admission :
  (forall cb now gen st cb1,
      currentState cb now = (gen, st, cb1) ->
      gen = generation_ cb1
      /\ (st = STATE_OPEN ->
          beforeRequest cb now = (ResultCodeErrOpenState, gen, cb1))
      /\ (st = STATE_HALF_OPEN ->
          max_requests (settings_ cb1) <= Counts.requests (counts_ cb1) ->
          beforeRequest cb now = (ResultCodeErrTooManyRequests, gen, cb1))
      /\ (st <> STATE_OPEN ->
          ~ (st = STATE_HALF_OPEN
             /\ max_requests (settings_ cb1)
                <= Counts.requests (counts_ cb1)) ->
          beforeRequest cb now
          = (ResultCodeOK, gen,
             mkCircuitBreaker (settings_ cb1) (state_ cb1) (generation_ cb1)
               (Counts.mk (wrap32 (Counts.requests (counts_ cb1) + 1))
                          (Counts.total_successes (counts_ cb1))
                          (Counts.total_failures (counts_ cb1))
                          (Counts.consecutive_successes (counts_ cb1))
                          (Counts.consecutive_failures (counts_ cb1)))
               (expiry_ cb1) (notified_ cb1))
          /\ (0 <= Counts.requests (counts_ cb1) < 2 ^ 32 - 1 ->
              wrap32 (Counts.requests (counts_ cb1) + 1)
              = Counts.requests (counts_ cb1) + 1)))
  /\ (forall cb nows,
         state_ cb = STATE_HALF_OPEN ->
         Counts.requests (counts_ cb) = 0 ->
         is_uint32 (max_requests (settings_ cb)) ->
         Z.of_nat (List.length nows) = max_requests (settings_ cb) + 1 ->
         fst (beforeRequests cb nows)
         = repeat (ResultCodeOK, generation_ cb)
                  (Z.to_nat (max_requests (settings_ cb)))
           ++ [(ResultCodeErrTooManyRequests, generation_ cb)]).
Proof.
  split.
  - intros cb now gen st cb1 H.
    pose proof (beforeRequest_cases _ _ _ _ _ H) as Hc.
    apply currentState_eq in H. destruct H as (Hg & Hs & _).
    split; [exact Hg|]. split; [|split].
    + intros ->. exact Hc.
    + intros -> Hle. apply Z.leb_le in Hle. rewrite Hle in Hc. exact Hc.
    + intros Hno Hnq. split.
      * rewrite Hc. rewrite Hg. destruct st.
        -- reflexivity.
        -- destruct (max_requests (settings_ cb1)
                     <=? Counts.requests (counts_ cb1)) eqn:E.
           ++ apply Z.leb_le in E. exfalso. apply Hnq. auto.
           ++ reflexivity.
        -- congruence.
      * intro Hr. apply wrap32_small. lia.
  - intros cb nows Hst Hr0 Hm Hlen. unfold is_uint32 in Hm.
    destruct (beforeRequests_half_open nows cb Hst) as (H1 & _); try lia.
    rewrite H1, Hr0, Z.sub_0_r.
    replace (Nat.min (List.length nows) (Z.to_nat (max_requests (settings_ cb))))
      with (Z.to_nat (max_requests (settings_ cb))) by lia.
    replace (List.length nows - Z.to_nat (max_requests (settings_ cb)))%nat
      with 1%nat by lia.
    reflexivity.
Qed.

Lemma beforeRequest_admission_witness :
  beforeRequest open_waiting 50 = (ResultCodeErrOpenState, 4, open_waiting)
  /\ fst (beforeRequests half_open_three [10; 11; 12; 13])
     = [(ResultCodeOK, 5); (ResultCodeOK, 5); (ResultCodeOK, 5);
        (ResultCodeErrTooManyRequests, 5)].
Proof.
  split.
  - apply (proj1 beforeRequest_admission open_waiting 50 4 STATE_OPEN
             open_waiting); reflexivity.
  - apply (proj2 beforeRequest_admission half_open_three [10; 11; 12; 13]).
    + reflexivity.
    + reflexivity.
    + unfold is_uint32. simpl. lia.
    + reflexivity.
Defined.

(** *** Phase 2: reporting *)

(** C2.  [afterRequest(token, success)] with a token that differs from the
    generation [currentState(now)] returns: the call returns normally and
    the object (settings, state, generation, counts, expiry and the
    notifications sent) is exactly as [currentState(now)] left it. *)
Theorem afterRequest_stale : forall cb now token success gen st cb1,
  currentState cb now = (gen, st, cb1) ->
  gen <> token ->
  afterRequest cb now token success = Done cb1.
Proof.
  intros cb now token success gen st cb1 H Hne.
  unfold afterRequest. rewrite H.
  apply Z.eqb_neq in Hne. rewrite Hne. reflexivity.
Qed.

Lemma afterRequest_stale_witness :
  afterRequest closed_second_generation 10 1 false
  = Done closed_second_generation.
Proof.
  apply (afterRequest_stale closed_second_generation 10 1 false 2
           STATE_CLOSED closed_second_generation).
  - reflexivity.
  - lia.
Defined.

(** C5.  An outcome reported in Half-Open with the token of the current
    generation.  A success is tallied with [Counts::onSuccess]; when
    [consecutive_successes >= max_requests] afterwards the breaker becomes
    Closed in a new generation with cleared counts, otherwise it stays
    Half-Open with the tallied counts.  A failure makes the breaker Open in
    a new generation at once: nothing is tallied and the trip predicate is
    not consulted (the call returns normally whatever [ready_to_trip]
    holds). *)
Theorem afterRequest_half_open : forall cb now,
  state_ cb = STATE_HALF_OPEN ->
  afterRequest cb now (generation_ cb) true
  = Done
      (if max_requests (settings_ cb)
            <=? Counts.consecutive_successes (Counts.onSuccess (counts_ cb))
       then mkCircuitBreaker (settings_ cb) STATE_CLOSED
              (wrap64 (generation_ cb + 1)) Counts.zero
              (if interval (settings_ cb) =? 0 then zero_time
               else now + interval (settings_ cb))
              (if on_state_change (settings_ cb)
               then (name (settings_ cb), STATE_HALF_OPEN, STATE_CLOSED)
                      :: notified_ cb
               else notified_ cb)
       else mkCircuitBreaker (settings_ cb) STATE_HALF_OPEN (generation_ cb)
              (Counts.onSuccess (counts_ cb)) (expiry_ cb) (notified_ cb))
  /\ afterRequest cb now (generation_ cb) false
     = Done
         (mkCircuitBreaker (settings_ cb) STATE_OPEN
            (wrap64 (generation_ cb + 1)) Counts.zero
            (now + timeout (settings_ cb))
            (if on_state_change (settings_ cb)
             then (name (settings_ cb), STATE_HALF_OPEN, STATE_OPEN)
                    :: notified_ cb
             else notified_ cb)).
Proof.
  intros cb now Hst. destruct cb as [s st g c e n]. simpl in Hst. subst st.
  unfold afterRequest. run_breaker. rewrite Z.eqb_refl. run_breaker.
  split; split_ifs; (reflexivity || congruence).
Qed.

(** *** The default breaker through the steps of the test suite *)

Example test_default_closed :
  state_ default_after_5_failures = STATE_CLOSED
  /\ counts_ default_after_5_failures = Counts.mk 5 0 5 0 5
  /\ counts_ default_after_success = Counts.mk 6 1 5 1 0
  /\ state_ default_after_6th_failure = STATE_CLOSED
  /\ counts_ default_after_6th_failure = Counts.mk 7 1 6 0 1.
Proof. vm_compute. repeat split. Qed.

Example test_default_open :
  state_ default_tripped = STATE_OPEN
  /\ counts_ default_tripped = Counts.mk 0 0 0 0 0
  /\ expiry_ default_tripped = 12 + seconds 60
  /\ fst (fst (beforeRequest default_tripped 13)) = ResultCodeErrOpenState
  /\ fst (GetState default_tripped (12 + seconds 59)) = STATE_OPEN.
Proof. vm_compute. repeat split. Qed.

Example test_default_half_open :
  state_ default_half_open = STATE_HALF_OPEN
  /\ expiry_ default_half_open = 0
  /\ state_ default_reopened = STATE_OPEN
  /\ counts_ default_reopened = Counts.mk 0 0 0 0 0
  /\ expiry_ default_reopened = 21 + seconds 120
  /\ state_ default_half_open_again = STATE_HALF_OPEN
  /\ state_ default_recovered = STATE_CLOSED
  /\ counts_ default_recovered = Counts.mk 0 0 0 0 0
  /\ expiry_ default_recovered = 0.
Proof. vm_compute. repeat split. Qed.

(** *** Settings never change after the constructor *)

Lemma onSuccess_settings : forall cb st now,
  settings_ (onSuccess cb st now) = settings_ cb.
Proof.
  intros cb st now. unfold onSuccess. destruct st; try reflexivity.
  cbv zeta. split_ifs; [rewrite setState_settings|]; reflexivity.
Qed.

Lemma onFailure_settings : forall cb st now,
  settings_ (final (onFailure cb st now)) = settings_ cb.
Proof.
  intros cb st now. unfold onFailure. destruct st; cbv zeta.
  - destruct (ready_to_trip _) as [trip|]; [|reflexivity].
    destruct (trip _); cbn [final]; [rewrite setState_settings|];
      reflexivity.
  - cbn [final]. apply setState_settings.
  - reflexivity.
Qed.

Lemma afterRequest_settings : forall cb now token success,
  settings_ (final (afterRequest cb now token success)) = settings_ cb.
Proof.
  intros cb now token success. unfold afterRequest.
  destruct (currentState cb now) as [[gen st] cb1] eqn:E.
  apply currentState_eq in E. destruct E as (_ & _ & Hs).
  destruct (negb (gen =? token)); [exact Hs|].
  destruct success; cbn [final];
    [rewrite onSuccess_settings | rewrite onFailure_settings]; exact Hs.
Qed.

Lemma step_settings : forall s c s',
  step s c = Some s' -> settings_ (breaker s') = settings_ (breaker s).
Proof.
  intros s c s' Hstep.
  destruct c as [now | now token success | now]; cbn [step] in Hstep.
  - pose proof (beforeRequest_settings (breaker s) now) as Hs.
    destruct (beforeRequest (breaker s) now) as [[err gen] cb'].
    cbn [snd] in Hs.
    destruct (err =? ResultCodeOK); injection Hstep as <-; exact Hs.
  - destruct (existsb (Z.eqb token) (in_flight s)); [|discriminate].
    injection Hstep as <-. apply afterRequest_settings.
  - injection Hstep as <-.
    change (settings_ (snd (currentState (breaker s) now))
            = settings_ (breaker s)).
    apply currentState_settings.
Qed.

Lemma run_settings : forall calls s s',
  run s calls = Some s' -> settings_ (breaker s') = settings_ (breaker s).
Proof.
  induction calls as [|c rest IH]; intros s s' Hrun; cbn [run] in Hrun.
  - injection Hrun as <-. reflexivity.
  - destruct (step s c) as [s1|] eqn:E; [|discriminate].
    rewrite (IH _ _ Hrun). apply (step_settings _ _ _ E).
Qed.

(** Every breaker reached from the constructor has [ready_to_trip] set:
    no call on it ends in [std::bad_function_call]. *)
Lemma reachable_ready_to_trip : forall st now calls s,
  run (boot st now) calls = Some s ->
  ready_to_trip (settings_ (breaker s)) <> None.
Proof.
  intros st now calls s Hrun. rewrite (run_settings _ _ _ Hrun).
  destruct (newCircuitBreaker_fields st now) as (_ & _ & Hr & _).
  cbn [boot breaker]. rewrite Hr.
  destruct (ready_to_trip st); discriminate.
Qed.

(** *** Execute *)

Lemma beforeRequest_code : forall cb now,
  fst (fst (beforeRequest cb now)) = ResultCodeOK
  \/ fst (fst (beforeRequest cb now)) = ResultCodeErrOpenState
  \/ fst (fst (beforeRequest cb now)) = ResultCodeErrTooManyRequests.
Proof.
  intros cb now. unfold beforeRequest.
  destruct (currentState cb now) as [[gen st] cb1].
  split_ifs; simpl; auto.
Qed.

Lemma onFailure_Done : forall cb st now,
  ready_to_trip (settings_ cb) <> None ->
  onFailure cb st now = Done (final (onFailure cb st now)).
Proof.
  intros cb st now H. unfold onFailure. destruct st; try reflexivity.
  cbn [with_counts settings_ counts_].
  destruct (ready_to_trip (settings_ cb)) as [trip|]; [|congruence].
  destruct (trip _); reflexivity.
Qed.

Lemma afterRequest_Done : forall cb now token success,
  ready_to_trip (settings_ cb) <> None ->
  afterRequest cb now token success
  = Done (final (afterRequest cb now token success)).
Proof.
  intros cb now token success H. unfold afterRequest.
  destruct (currentState cb now) as [[gen st] cb1] eqn:E.
  apply currentState_eq in E. destruct E as (_ & _ & Hs).
  destruct (negb (gen =? token)); [reflexivity|].
  destruct success; [reflexivity|].
  apply onFailure_Done. rewrite Hs. exact H.
Qed.

(** C7.  [Execute(req)].  When Phase 1 rejects, the result is [Result_()]
    paired with the rejection code (one of the two reserved codes), the
    object is as Phase 1 left it and the world of the operation is
    untouched: [req] did not run.  When Phase 1 accepts, [req] runs once on
    the world, Phase 2 is called with the token of Phase 1 and the verdict
    [code == 0], and the value and code of [req] are returned as they are
    (when [ready_to_trip] is set, as the constructor guarantees, Phase 2
    cannot throw). *)
Theorem Execute_contract :
  forall (R W : Type) (default : R) (req : W -> R * Z * W)
         cb w now1 others now2 err gen cb1,
  beforeRequest cb now1 = (err, gen, cb1) ->
  (err <> ResultCodeOK ->
   Execute default req cb w now1 others now2 = Returned (default, err) cb1 w
   /\ (err = ResultCodeErrOpenState
       \/ err = ResultCodeErrTooManyRequests))
  /\ (err = ResultCodeOK ->
      forall ret w', req w = (ret, w') ->
      Execute default req cb w now1 others now2
      = match afterRequest (others cb1) now2 gen (snd ret =? 0) with
        | Done cb2 => Returned ret cb2 w'
        | BadFunctionCall cb2 => Raised cb2 w'
        end
      /\ (ready_to_trip (settings_ (others cb1)) <> None ->
          Execute default req cb w now1 others now2
          = Returned ret
              (final (afterRequest (others cb1) now2 gen (snd ret =? 0)))
              w')).
Proof.
  intros R W default req cb w now1 others now2 err gen cb1 Hb.
  split.
  - intro Hne. split.
    + unfold Execute. rewrite Hb.
      apply Z.eqb_neq in Hne. rewrite Hne. reflexivity.
    + pose proof (beforeRequest_code cb now1) as Hc. rewrite Hb in Hc.
      simpl in Hc. destruct Hc as [Hc | [Hc | Hc]]; [congruence | auto ..].
  - intros -> ret w' Hreq.
    assert (He : Execute default req cb w now1 others now2
                 = match afterRequest (others cb1) now2 gen (snd ret =? 0)
                   with
                   | Done cb2 => Returned ret cb2 w'
                   | BadFunctionCall cb2 => Raised cb2 w'
                   end).
    { unfold Execute. rewrite Hb. simpl. rewrite Hreq. reflexivity. }
    split; [exact He|].
    intro Hr. rewrite He. rewrite (afterRequest_Done _ _ _ _ Hr).
    reflexivity.
Qed.

(** *** Idempotence of the lazy transition *)

Lemma currentState_settled : forall cb now,
  0 <= interval (settings_ cb) ->
  let cb1 := snd (currentState cb now) in
  (state_ cb1 = STATE_CLOSED /\ (expiry_ cb1 = 0 \/ now <= expiry_ cb1))
  \/ (state_ cb1 = STATE_OPEN /\ now <= expiry_ cb1)
  \/ state_ cb1 = STATE_HALF_OPEN.
Proof.
  intros cb now Hi. destruct cb as [s st g c e n]. simpl in Hi.
  unfold currentState. cbn [snd state_ expiry_].
  destruct st.
  - destruct (e =? 0) eqn:E0; simpl.
    + apply Z.eqb_eq in E0. left. auto.
    + destruct (e <? now) eqn:E1.
      * left. unfold toNewGeneration. simpl.
        destruct (interval s =? 0) eqn:Ei; simpl.
        -- auto.
        -- split; [reflexivity|]. right. lia.
      * apply Z.ltb_ge in E1. left. simpl. auto.
  - right. right. reflexivity.
  - destruct (e <? now) eqn:E1.
    + right. right. unfold setState. simpl.
      destruct (on_state_change s); reflexivity.
    + apply Z.ltb_ge in E1. right. left. simpl. auto.
Qed.

(** C9 (amended).  When [interval] is not negative, a second
    [currentState(now)] (or [GetState]) at the same clock reading returns
    the same generation and state as the first and leaves the object as
    the first call left it. *)
Theorem currentState_idempotent : forall cb now gen st cb1,
  0 <= interval (settings_ cb) ->
  currentState cb now = (gen, st, cb1) ->
  currentState cb1 now = (gen, st, cb1) /\ GetState cb1 now = (st, cb1).
Proof.
  intros cb now gen st cb1 Hi H.
  pose proof (currentState_settled cb now Hi) as Hs.
  pose proof (currentState_eq _ _ _ _ _ H) as (Hg & Hst & _).
  rewrite H in Hs. cbn [snd] in Hs.
  assert (He : currentState cb1 now = (gen, st, cb1)).
  { rewrite (currentState_unchanged cb1 now Hs). subst. reflexivity. }
  split; [exact He|]. unfold GetState. rewrite He. reflexivity.
Qed.

Lemma currentState_idempotent_witness :
  currentState
    (mkCircuitBreaker default_settings STATE_HALF_OPEN 3 Counts.zero 0 [])
    200
  = (3, STATE_HALF_OPEN,
     mkCircuitBreaker default_settings STATE_HALF_OPEN 3 Counts.zero 0 []).
Proof.
  apply (currentState_idempotent
           (mkCircuitBreaker default_settings STATE_OPEN 2 Counts.zero 100 [])
           200 3 STATE_HALF_OPEN
           (mkCircuitBreaker default_settings STATE_HALF_OPEN 3 Counts.zero
                             0 [])).
  - simpl. lia.
  - reflexivity.
Defined.

(** C9 as stated fails for a negative [interval]: the breaker built from
    [negative_interval] at clock reading [0] is in generation [2] after one
    [GetState] at clock reading [10] and in generation [3] after a second
    one at the same reading. *)
Lemma GetState_twice_counterexample :
  generation_ (snd (GetState (newCircuitBreaker negative_interval 0) 10)) = 2
  /\ generation_
       (snd (GetState
               (snd (GetState (newCircuitBreaker negative_interval 0) 10))
               10)) = 3.
Proof. split; vm_compute; reflexivity. Qed.

(** *** Tripping under the default predicate *)

Lemma afterRequest_closed_failure : forall cb now tok cb1,
  currentState cb now = (tok, STATE_CLOSED, cb1) ->
  ready_to_trip (settings_ cb) = Some defaultReadyToTrip ->
  afterRequest cb now tok false
  = Done
      (if 5 <? wrap32 (Counts.consecutive_failures (counts_ cb1) + 1)
       then mkCircuitBreaker (settings_ cb1) STATE_OPEN
              (wrap64 (generation_ cb1 + 1)) Counts.zero
              (now + timeout (settings_ cb1))
              (if on_state_change (settings_ cb1)
               then (name (settings_ cb1), STATE_CLOSED, STATE_OPEN)
                      :: notified_ cb1
               else notified_ cb1)
       else with_counts (Counts.onFailure (counts_ cb1)) cb1).
Proof.
  intros cb now tok cb1 H Hrt.
  pose proof (currentState_eq _ _ _ _ _ H) as (_ & Hst & Hs).
  unfold afterRequest. rewrite H, Z.eqb_refl. cbn [negb].
  rewrite <- Hs in Hrt. destruct cb1 as [s st g c e n].
  simpl in Hst, Hrt. subst st.
  run_breaker. rewrite Hrt. unfold defaultReadyToTrip. run_breaker.
  split_ifs; (reflexivity || congruence).
Qed.

Lemma fails_app : forall a b cb, fails cb (a ++ b) = fails (fails cb a) b.
Proof.
  induction a as [|[now1 now2] a IH]; intros b cb; simpl;
    [reflexivity | apply IH].
Qed.

(** One [fail] on a Closed breaker whose counting window does not roll
    over at either clock reading. *)
Lemma fail_closed : forall cb now1 now2,
  state_ cb = STATE_CLOSED ->
  ready_to_trip (settings_ cb) = Some defaultReadyToTrip ->
  expiry_ cb = 0 \/ (now1 <= expiry_ cb /\ now2 <= expiry_ cb) ->
  breaker_of (fail cb now1 now2)
  = (if 5 <? wrap32 (Counts.consecutive_failures (counts_ cb) + 1)
     then mkCircuitBreaker (settings_ cb) STATE_OPEN
            (wrap64 (generation_ cb + 1)) Counts.zero
            (now2 + timeout (settings_ cb))
            (if on_state_change (settings_ cb)
             then (name (settings_ cb), STATE_CLOSED, STATE_OPEN)
                    :: notified_ cb
             else notified_ cb)
     else with_counts
            (Counts.onFailure (Counts.onRequest (counts_ cb))) cb).
Proof.
  intros cb now1 now2 Hst Hrt He.
  unfold fail, Execute.
  rewrite (beforeRequest_cases cb now1 (generation_ cb) (state_ cb) cb)
    by (apply currentState_unchanged; left; split; [exact Hst | tauto]).
  rewrite Hst. cbn [negb Z.eqb ResultCodeOK snd].
  set (cb1 := with_counts (Counts.onRequest (counts_ cb)) cb).
  rewrite (afterRequest_closed_failure cb1 now2 (generation_ cb) cb1).
  - cbn [breaker_of]. unfold cb1. destruct cb as [s st g c e n].
    run_breaker. split_ifs; reflexivity.
  - rewrite (currentState_unchanged cb1 now2).
    + unfold cb1. simpl. rewrite Hst. reflexivity.
    + left. unfold cb1. simpl. split; [exact Hst | tauto].
  - exact Hrt.
Qed.

Lemma fails_below_threshold : forall nows cb,
  state_ cb = STATE_CLOSED ->
  ready_to_trip (settings_ cb) = Some defaultReadyToTrip ->
  0 <= Counts.consecutive_failures (counts_ cb) ->
  Counts.consecutive_failures (counts_ cb) + Z.of_nat (List.length nows)
    <= 5 ->
  within_window cb nows ->
  state_ (fails cb nows) = STATE_CLOSED
  /\ Counts.consecutive_failures (counts_ (fails cb nows))
     = Counts.consecutive_failures (counts_ cb) + Z.of_nat (List.length nows)
  /\ generation_ (fails cb nows) = generation_ cb
  /\ settings_ (fails cb nows) = settings_ cb
  /\ expiry_ (fails cb nows) = expiry_ cb
  /\ notified_ (fails cb nows) = notified_ cb.
Proof.
  induction nows as [|[now1 now2] rest IH]; intros cb Hst Hrt H0 Hle Hw.
  - simpl. rewrite Z.add_0_r. repeat split; auto.
  - cbn [fails]. cbn [List.length] in Hle |- *.
    assert (Hstep : breaker_of (fail cb now1 now2)
                    = with_counts
                        (Counts.onFailure (Counts.onRequest (counts_ cb)))
                        cb).
    { rewrite fail_closed; auto.
      - rewrite wrap32_small by lia.
        destruct (5 <? Counts.consecutive_failures (counts_ cb) + 1) eqn:E;
          [apply Z.ltb_lt in E; lia | reflexivity].
      - destruct Hw as [Hw | Hw]; [auto|].
        right. inversion Hw; subst. assumption. }
    rewrite Hstep.
    set (cb1 := with_counts
                  (Counts.onFailure (Counts.onRequest (counts_ cb))) cb).
    assert (Hcf : Counts.consecutive_failures (counts_ cb1)
                  = Counts.consecutive_failures (counts_ cb) + 1).
    { unfold cb1. simpl. apply wrap32_small. lia. }
    destruct (IH cb1) as (I1 & I2 & I3 & I4 & I5 & I6).
    + exact Hst.
    + exact Hrt.
    + lia.
    + lia.
    + destruct Hw as [Hw | Hw]; [left; exact Hw|].
      right. inversion Hw; subst. assumption.
    + rewrite I1, I2, I3, I4, I5, I6, Hcf. repeat split. lia.
Qed.

(** C3 (amended).  Under the default trip predicate a failure reported
    while Closed, with the token of the current generation, opens the
    breaker exactly when it takes [consecutive_failures] above [5]; then
    the counts are all zero and the expiry is [now + timeout], which is
    later than [now] when [timeout] is positive and non-zero when moreover
    [now] is not negative.  In a run of failing calls that starts with
    [consecutive_failures = 0] inside one counting window the breaker is
    still Closed after each of the first five and Open after the sixth. *)
Theorem trip_on_sixth_failure :
  (forall cb now tok cb1,
      currentState cb now = (tok, STATE_CLOSED, cb1) ->
      ready_to_trip (settings_ cb) = Some defaultReadyToTrip ->
      exists cb2,
        afterRequest cb now tok false = Done cb2
        /\ (state_ cb2 = STATE_OPEN
            <-> 5 < wrap32 (Counts.consecutive_failures (counts_ cb1) + 1))
        /\ (state_ cb2 = STATE_OPEN ->
            counts_ cb2 = Counts.zero
            /\ expiry_ cb2 = now + timeout (settings_ cb)
            /\ (0 < timeout (settings_ cb) -> now < expiry_ cb2)
            /\ (0 < timeout (settings_ cb) -> 0 <= now -> expiry_ cb2 <> 0))
        /\ (state_ cb2 <> STATE_OPEN ->
            cb2 = with_counts (Counts.onFailure (counts_ cb1)) cb1))
  /\ (forall cb nows,
         state_ cb = STATE_CLOSED ->
         ready_to_trip (settings_ cb) = Some defaultReadyToTrip ->
         Counts.consecutive_failures (counts_ cb) = 0 ->
         within_window cb nows ->
         (Z.of_nat (List.length nows) <= 5 ->
          state_ (fails cb nows) = STATE_CLOSED
          /\ Counts.consecutive_failures (counts_ (fails cb nows))
             = Z.of_nat (List.length nows))
         /\ (Z.of_nat (List.length nows) = 6 ->
             state_ (fails cb nows) = STATE_OPEN
             /\ counts_ (fails cb nows) = Counts.zero
             /\ expiry_ (fails cb nows)
                = snd (last nows (0, 0)) + timeout (settings_ cb)
             /\ (0 < timeout (settings_ cb) ->
                 snd (last nows (0, 0)) < expiry_ (fails cb nows)))).
Proof.
  split.
  - intros cb now tok cb1 H Hrt.
    pose proof (currentState_eq _ _ _ _ _ H) as (_ & Hst & Hs).
    rewrite (afterRequest_closed_failure _ _ _ _ H Hrt).
    eexists. split; [reflexivity|].
    destruct (5 <? wrap32 (Counts.consecutive_failures (counts_ cb1) + 1))
      eqn:E.
    + apply Z.ltb_lt in E. rewrite Hs. cbn [state_ counts_ expiry_].
      repeat split; auto; try lia; congruence.
    + apply Z.ltb_ge in E. cbn [with_counts state_]. rewrite <- Hst.
      repeat split; try congruence; try lia.
  - intros cb nows Hst Hrt H0 Hw. split.
    + intro Hlen.
      destruct (fails_below_threshold nows cb) as (I1 & I2 & _); auto;
        try lia.
      split; [exact I1 | lia].
    + intro Hlen.
      assert (Hne : nows <> []) by (intro; subst; simpl in Hlen; lia).
      destruct (exists_last Hne) as (first & [now1 now2] & ->).
      rewrite last_last. cbn [snd].
      rewrite length_app in Hlen. cbn [List.length] in Hlen.
      assert (Hw1 : within_window cb first).
      { destruct Hw as [Hw | Hw]; [left; exact Hw | right].
        apply Forall_app in Hw. tauto. }
      destruct (fails_below_threshold first cb)
        as (I1 & I2 & I3 & I4 & I5 & I6); auto; try lia.
      rewrite fails_app. cbn [fails].
      rewrite fail_closed.
      * rewrite I2, H0, I4. rewrite wrap32_small by lia.
        replace (0 + Z.of_nat (List.length first) + 1) with 6 by lia.
        cbn [Z.ltb Z.compare Pos.compare Pos.compare_cont
             state_ counts_ expiry_].
        repeat split. lia.
      * exact I1.
      * rewrite I4. exact Hrt.
      * rewrite I5. destruct Hw as [Hw | Hw]; [left; exact Hw | right].
        apply Forall_app in Hw. destruct Hw as [_ Hw].
        inversion Hw; subst. assumption.
Qed.

Lemma trip_on_sixth_failure_witness :
  (exists cb2,
      afterRequest
        (mkCircuitBreaker
           (mkSettings EmptyString 1 0 (seconds 60)
                       (Some defaultReadyToTrip) false)
           STATE_CLOSED 1 (Counts.mk 6 0 5 0 5) 0 [])
        100 1 false = Done cb2
      /\ state_ cb2 = STATE_OPEN /\ expiry_ cb2 = 100 + seconds 60)
  /\ state_ (fails (newCircuitBreaker default_settings 0) six_at_100)
     = STATE_OPEN.
Proof.
  split.
  - destruct (proj1 trip_on_sixth_failure
                (mkCircuitBreaker
                   (mkSettings EmptyString 1 0 (seconds 60)
                               (Some defaultReadyToTrip) false)
                   STATE_CLOSED 1 (Counts.mk 6 0 5 0 5) 0 [])
                100 1
                (mkCircuitBreaker
                   (mkSettings EmptyString 1 0 (seconds 60)
                               (Some defaultReadyToTrip) false)
                   STATE_CLOSED 1 (Counts.mk 6 0 5 0 5) 0 [])
                eq_refl eq_refl) as (cb2 & H1 & H2 & H3 & _).
    exists cb2. split; [exact H1|].
    assert (Ho : state_ cb2 = STATE_OPEN) by (apply H2; vm_compute; reflexivity).
    split; [exact Ho|]. apply H3. exact Ho.
  - apply (proj2 trip_on_sixth_failure
             (newCircuitBreaker default_settings 0) six_at_100).
    + reflexivity.
    + reflexivity.
    + reflexivity.
    + left. reflexivity.
    + reflexivity.
Defined.

(** C3 as stated fails for a negative [timeout]: the breaker built from
    [negative_timeout] is Closed after five failing calls at clock reading
    [100] and Open after the sixth, with an expiry one second before the
    clock reading of the transition; the next [GetState] at that very
    reading already finds it Half-Open. *)
Lemma trip_expiry_counterexample :
  state_ (fails (newCircuitBreaker negative_timeout 0) (tl six_at_100))
  = STATE_CLOSED
  /\ state_ (fails (newCircuitBreaker negative_timeout 0) six_at_100)
     = STATE_OPEN
  /\ expiry_ (fails (newCircuitBreaker negative_timeout 0) six_at_100)
     = 100 - 1000000000
  /\ ~ (100 < expiry_ (fails (newCircuitBreaker negative_timeout 0)
                             six_at_100))
  /\ fst (GetState (fails (newCircuitBreaker negative_timeout 0) six_at_100)
                   100)
     = STATE_HALF_OPEN.
Proof.
  repeat split; try (vm_compute; reflexivity).
  vm_compute. intro H. discriminate H.
Qed.

Lemma afterRequest_half_open_witness :
  afterRequest half_open_breaker 50 3 true
  = Done
      (mkCircuitBreaker
         (mkSettings EmptyString 1 0 (seconds 60)
                     (Some defaultReadyToTrip) false)
         STATE_CLOSED 4 Counts.zero 0 [])
  /\ afterRequest half_open_breaker 50 3 false
     = Done
         (mkCircuitBreaker
            (mkSettings EmptyString 1 0 (seconds 60)
                        (Some defaultReadyToTrip) false)
            STATE_OPEN 4 Counts.zero (50 + seconds 60) []).
Proof.
  exact (afterRequest_half_open half_open_breaker 50 eq_refl).
Defined.

Lemma Execute_contract_witness :
  Execute 0 (counting_op 0) half_open_breaker 0%nat 50 (fun c => c) 60
  = Returned (0, ResultCodeErrTooManyRequests) half_open_breaker 0%nat
  /\ Execute 0 (counting_op 7) (newCircuitBreaker default_settings 0) 0%nat
             50 (fun c => c) 60
     = Returned (42, 7)
         (mkCircuitBreaker
            (mkSettings EmptyString 1 0 (seconds 60)
                        (Some defaultReadyToTrip) false)
            STATE_CLOSED 1 (Counts.mk 1 0 1 0 1) 0 [])
         1%nat.
Proof.
  split.
  - apply (Execute_contract Z nat 0 (counting_op 0) half_open_breaker 0%nat
             50 (fun c => c) 60 ResultCodeErrTooManyRequests 3
             half_open_breaker).
    + reflexivity.
    + unfold ResultCodeErrTooManyRequests, ResultCodeOK. lia.
  - apply (proj2 (Execute_contract Z nat 0 (counting_op 7)
                    (newCircuitBreaker default_settings 0) 0%nat
                    50 (fun c => c) 60 ResultCodeOK 1
                    (mkCircuitBreaker
                       (mkSettings EmptyString 1 0 (seconds 60)
                                   (Some defaultReadyToTrip) false)
                       STATE_CLOSED 1 (Counts.mk 1 0 0 0 0) 0 [])
                    eq_refl)
             eq_refl (42, 7) 1%nat eq_refl).
    simpl. discriminate.
Defined.

(** *** How each method moves the accounting epoch *)

Lemma evolves_refl : forall cb, evolves cb cb.
Proof. intro cb. apply evolves_same; reflexivity. Qed.

Lemma toNewGeneration_evolves : forall cb cb0 now,
  generation_ cb = generation_ cb0 ->
  evolves cb0 (toNewGeneration cb now).
Proof.
  intros cb cb0 now Hg. apply evolves_new.
  - rewrite <- Hg. unfold toNewGeneration. simpl.
    destruct (state_ cb); split_ifs; reflexivity.
  - unfold toNewGeneration. simpl.
    destruct (state_ cb); split_ifs; reflexivity.
Qed.

Lemma setState_evolves : forall cb st now, evolves cb (setState cb st now).
Proof.
  intros cb st now. unfold setState.
  destruct (State_eqb (state_ cb) st); [apply evolves_refl|].
  pose proof (toNewGeneration_evolves (with_state st cb) cb now eq_refl)
    as He.
  destruct (on_state_change _); [|exact He].
  inversion He as [Hg Hc | Hg Hc]; [apply evolves_same | apply evolves_new];
    assumption.
Qed.

Lemma currentState_evolves : forall cb now,
  evolves cb (snd (currentState cb now)).
Proof.
  intros cb now. unfold currentState. cbn [snd].
  destruct (state_ cb); split_ifs;
    try apply evolves_refl;
    [apply toNewGeneration_evolves; reflexivity | apply setState_evolves].
Qed.



(** *** Tokens in flight *)

Lemma pending_nonneg : forall g tokens, 0 <= pending g tokens.
Proof. intros g tokens. unfold pending. lia. Qed.

Lemma pending_cons_same : forall g tokens,
  pending g (g :: tokens) = pending g tokens + 1.
Proof.
  intros g tokens. unfold pending. rewrite count_occ_cons_eq by reflexivity.
  lia.
Qed.

Lemma pending_ahead : forall g g' tokens,
  Forall (fun token => token <= g) tokens -> g < g' -> pending g' tokens = 0.
Proof.
  intros g g' tokens Hall Hlt. unfold pending.
  rewrite (proj1 (count_occ_not_In Z.eq_dec tokens g')); [reflexivity|].
  intro Hin. rewrite Forall_forall in Hall. apply Hall in Hin. lia.
Qed.

Lemma pending_remove_first : forall g token tokens,
  pending g (remove_first token tokens)
  = if existsb (Z.eqb token) tokens && (token =? g)
    then pending g tokens - 1
    else pending g tokens.
Proof.
  intros g token tokens. unfold pending.
  induction tokens as [|y rest IH]; [reflexivity|].
  cbn [remove_first existsb].
  destruct (token =? y) eqn:Ey.
  - apply Z.eqb_eq in Ey. subst y. cbn [orb andb].
    destruct (token =? g) eqn:Eg.
    + apply Z.eqb_eq in Eg. subst g.
      rewrite count_occ_cons_eq by reflexivity. lia.
    + apply Z.eqb_neq in Eg. rewrite count_occ_cons_neq by exact Eg.
      reflexivity.
  - cbn [orb]. apply Z.eqb_neq in Ey.
    destruct (Z.eq_dec y g) as [-> | Hyg].
    + rewrite !count_occ_cons_eq by reflexivity.
      rewrite !Nat2Z.inj_succ, IH.
      destruct (existsb (Z.eqb token) rest && (token =? g)); lia.
    + rewrite !count_occ_cons_neq by exact Hyg. exact IH.
Qed.

Lemma Forall_remove_first : forall (P : Z -> Prop) token tokens,
  Forall P tokens -> Forall P (remove_first token tokens).
Proof.
  intros P token tokens H. induction H as [|y rest Hy Hrest IH];
    cbn [remove_first]; [constructor|].
  destruct (token =? y); [exact Hrest | constructor; assumption].
Qed.

(** *** The streak counters *)


Lemma one_streak_onRequest : forall c,
  one_streak c -> one_streak (Counts.onRequest c).
Proof. intros c H. exact H. Qed.






(** *** Tallies against admissions *)










(** *** Wrapping the counters *)







Lemma wrap32_add_l : forall a b, wrap32 (wrap32 a + b) = wrap32 (a + b).
Proof. intros a b. unfold wrap32. apply Zplus_mod_idemp_l. Qed.

(** Admissions in a row on a Closed breaker without counting window. *)
Lemma run_admissions_closed : forall calls s,
  forallb is_before calls = true ->
  state_ (breaker s) = STATE_CLOSED ->
  expiry_ (breaker s) = 0 ->
  is_uint32 (Counts.requests (counts_ (breaker s))) ->
  exists s',
    run s calls = Some s'
    /\ state_ (breaker s') = STATE_CLOSED
    /\ expiry_ (breaker s') = 0
    /\ generation_ (breaker s') = generation_ (breaker s)
    /\ Counts.requests (counts_ (breaker s'))
       = wrap32 (Counts.requests (counts_ (breaker s))
                 + Z.of_nat (List.length calls))
    /\ in_flight s'
       = repeat (generation_ (breaker s)) (List.length calls) ++ in_flight s.
Proof.
  induction calls as [|c rest IH]; intros s Hb Hst He Hr.
  - exists s. cbn. rewrite Z.add_0_r, wrap32_small by exact Hr.
    repeat split; auto.
  - cbn [forallb] in Hb. apply andb_prop in Hb. destruct Hb as [Hc Hrest].
    destruct c as [now | |]; try discriminate.
    cbn [run step].
    rewrite (beforeRequest_cases (breaker s) now (generation_ (breaker s))
               (state_ (breaker s)) (breaker s))
      by (apply currentState_unchanged; auto).
    rewrite Hst. cbn [Z.eqb ResultCodeOK].
    set (s1 := mkSystem
                 (with_counts (Counts.onRequest (counts_ (breaker s)))
                              (breaker s))
                 (generation_ (breaker s) :: in_flight s)).
    destruct (IH s1 Hrest) as (s' & Hrun & H1 & H2 & H3 & H4 & H5).
    + exact Hst.
    + exact He.
    + cbn. apply wrap32_range.
    + exists s'. split; [exact Hrun|]. repeat split; auto.
      * rewrite H4. cbn. rewrite wrap32_add_l. f_equal. lia.
      * rewrite H5. cbn [s1 breaker in_flight with_counts generation_].
        change (generation_ (breaker s) :: in_flight s)
          with ([generation_ (breaker s)] ++ in_flight s).
        rewrite app_assoc, <- repeat_cons. reflexivity.
Qed.

(** C10.  The three increments of [Counts] are increments modulo [2^32]
    and keep the five fields in the range of [uint32_t].  On a breaker
    built with [interval = 0], any run of admissions alone is accepted in
    full within generation [1], and [requests] ends as the number of
    admissions modulo [2^32]: it is back at [0] after exactly [2^32] of
    them.  The generation counter is incremented modulo [2^64], so it
    passes [2^32] without wrapping. *)
Theorem counts_wrap_at_2_32 :
  (forall c,
      Counts.requests (Counts.onRequest c)
      = (Counts.requests c + 1) mod 2 ^ 32
      /\ Counts.total_successes (Counts.onSuccess c)
         = (Counts.total_successes c + 1) mod 2 ^ 32
      /\ Counts.consecutive_successes (Counts.onSuccess c)
         = (Counts.consecutive_successes c + 1) mod 2 ^ 32
      /\ Counts.total_failures (Counts.onFailure c)
         = (Counts.total_failures c + 1) mod 2 ^ 32
      /\ Counts.consecutive_failures (Counts.onFailure c)
         = (Counts.consecutive_failures c + 1) mod 2 ^ 32
      /\ (Counts.wf c ->
          Counts.wf (Counts.onRequest c) /\ Counts.wf (Counts.onSuccess c)
          /\ Counts.wf (Counts.onFailure c) /\ Counts.wf (Counts.clear c)))
  /\ (forall st now calls,
         interval st = 0 ->
         forallb is_before calls = true ->
         exists s,
           run (boot st now) calls = Some s
           /\ in_flight s = repeat 1 (List.length calls)
           /\ generation_ (breaker s) = 1
           /\ state_ (breaker s) = STATE_CLOSED
           /\ Counts.requests (counts_ (breaker s))
              = Z.of_nat (List.length calls) mod 2 ^ 32
           /\ (Z.of_nat (List.length calls) = 2 ^ 32 ->
               Counts.requests (counts_ (breaker s)) = 0))
  /\ (forall cb now,
         generation_ (toNewGeneration cb now)
         = (generation_ cb + 1) mod 2 ^ 64
         /\ (generation_ cb = 2 ^ 32 - 1 ->
             generation_ (toNewGeneration cb now) = 2 ^ 32)).
Proof.
  split; [|split].
  - intro c. do 5 (split; [reflexivity|]).
    intros (H1 & H2 & H3 & H4 & H5).
    pose proof (wrap32_range (Counts.requests c + 1)).
    pose proof (wrap32_range (Counts.total_successes c + 1)).
    pose proof (wrap32_range (Counts.total_failures c + 1)).
    pose proof (wrap32_range (Counts.consecutive_successes c + 1)).
    pose proof (wrap32_range (Counts.consecutive_failures c + 1)).
    unfold Counts.wf, is_uint32 in *. cbn. repeat split; lia.
  - intros st now calls Hi Hb.
    destruct (newCircuitBreaker_fields st now)
      as (_ & _ & _ & _ & _ & _ & Hst & Hc & Hg & He & _).
    rewrite Hi in He. cbn [Z.eqb] in He.
    destruct (run_admissions_closed calls (boot st now) Hb)
      as (s & Hrun & H1 & H2 & H3 & H4 & H5).
    + exact Hst.
    + exact He.
    + cbn [boot breaker]. rewrite Hc. unfold is_uint32. cbn. lia.
    + cbn [boot breaker in_flight] in H3, H4, H5.
      rewrite Hc in H4. rewrite Hg in H3, H5. cbn in H4.
      exists s. split; [exact Hrun|].
      split; [rewrite H5; apply app_nil_r|].
      split; [exact H3|]. split; [exact H1|].
      split; [exact H4|].
      intro Hlen. rewrite H4, Hlen. reflexivity.
  - intros cb now.
    assert (Hg : generation_ (toNewGeneration cb now)
                 = (generation_ cb + 1) mod 2 ^ 64).
    { unfold toNewGeneration. cbn.
      destruct (state_ cb); split_ifs; reflexivity. }
    split; [exact Hg|]. intro H. rewrite Hg, H. reflexivity.
Qed.

Lemma counts_wrap_at_2_32_witness :
  Counts.wf (Counts.onRequest (Counts.mk 4294967295 0 0 0 0))
  /\ exists s,
      run (boot default_settings 0) [CallBefore 5; CallBefore 9] = Some s
      /\ in_flight s = [1; 1]
      /\ Counts.requests (counts_ (breaker s)) = 2.
Proof.
  split.
  - apply (proj1 counts_wrap_at_2_32 (Counts.mk 4294967295 0 0 0 0)).
    unfold Counts.wf, is_uint32. cbn. lia.
  - destruct (proj1 (proj2 counts_wrap_at_2_32) default_settings 0
                [CallBefore 5; CallBefore 9] eq_refl eq_refl)
      as (s & H1 & H2 & _ & _ & H3 & _).
    exists s. split; [exact H1|]. split; [exact H2 | exact H3].
Defined.

(** * Further properties of the code *)

(** ** Admission as a function of the stored state *)

(** X1.  With [max_requests >= 1], what [beforeRequest] answers is decided
    by the stored state alone: a Closed breaker always lets the call in; a
    Half-Open one lets it in unless [requests >= max_requests]; an Open one
    rejects while [now <= expiry] and, once the expiry has passed, lets the
    call in at once as the first trial of the new Half-Open generation
    ([requests = 1] afterwards). *)
Theorem admission_decision : forall cb now,
  1 <= max_requests (settings_ cb) ->
  fst (fst (beforeRequest cb now))
  = match state_ cb with
    | STATE_CLOSED => ResultCodeOK
    | STATE_HALF_OPEN =>
        if max_requests (settings_ cb) <=? Counts.requests (counts_ cb)
        then ResultCodeErrTooManyRequests
        else ResultCodeOK
    | STATE_OPEN =>
        if expiry_ cb <? now then ResultCodeOK else ResultCodeErrOpenState
    end
  /\ (state_ cb = STATE_OPEN -> expiry_ cb < now ->
      state_ (snd (beforeRequest cb now)) = STATE_HALF_OPEN
      /\ counts_ (snd (beforeRequest cb now)) = Counts.mk 1 0 0 0 0).
Proof.
  intros cb now Hmax. destruct cb as [s st g c e n]. cbn in Hmax.
  unfold beforeRequest. cbn [state_ settings_ counts_ expiry_].
  destruct st.
  - split; [|discriminate]. run_breaker.
    split_ifs; (reflexivity || discriminate).
  - split; [|discriminate]. run_breaker.
    split_ifs; (reflexivity || discriminate).
  - split.
    + run_breaker. destruct (e <? now) eqn:E; [|reflexivity].
      destruct (on_state_change s); cbn;
        (destruct (max_requests s <=? 0) eqn:E1;
         [apply Z.leb_le in E1; lia | reflexivity]).
    + intros _ Hlt. apply Z.ltb_lt in Hlt. run_breaker. rewrite Hlt.
      destruct (on_state_change s); cbn;
        (destruct (max_requests s <=? 0) eqn:E1;
         [apply Z.leb_le in E1; lia | split; reflexivity]).
Qed.

Lemma admission_decision_witness :
  fst (fst (beforeRequest open_expired 101)) = ResultCodeOK
  /\ fst (fst (beforeRequest open_expired 100)) = ResultCodeErrOpenState.
Proof.
  split.
  - apply (admission_decision open_expired 101). cbn. lia.
  - apply (admission_decision open_expired 100). cbn. lia.
Defined.

(** ** The Open state *)

Lemma step_open_inert : forall s c s',
  state_ (breaker s) = STATE_OPEN ->
  call_time c <= expiry_ (breaker s) ->
  step s c = Some s' ->
  breaker s' = breaker s
  /\ (forall token, In token (in_flight s') -> In token (in_flight s)).
Proof.
  intros s c s' Hst Ht Hstep.
  assert (Hcur : forall now, now <= expiry_ (breaker s) ->
            currentState (breaker s) now
            = (generation_ (breaker s), STATE_OPEN, breaker s)).
  { intros now Hnow. rewrite <- Hst. apply currentState_unchanged. auto. }
  destruct c as [now | now token success | now]; cbn [step call_time] in *.
  - rewrite (beforeRequest_cases _ _ _ _ _ (Hcur now Ht)) in Hstep.
    cbn in Hstep. injection Hstep as <-. cbn. auto.
  - destruct (existsb (Z.eqb token) (in_flight s)); [|discriminate].
    injection Hstep as <-. cbn [breaker in_flight]. split.
    + unfold afterRequest. rewrite (Hcur now Ht).
      destruct (negb (generation_ (breaker s) =? token)); [reflexivity|].
      destruct success; reflexivity.
    + intro t. clear. induction (in_flight s) as [|y l IH];
        cbn [remove_first]; [auto|].
      destruct (token =? y); cbn [In]; [auto|]. intuition.
  - injection Hstep as <-. split; [|auto].
    change (snd (currentState (breaker s) now) = breaker s).
    rewrite (Hcur now Ht). reflexivity.
Qed.

(** X2.  An Open breaker is inert until its expiry: whatever calls arrive
    with clock readings not past the expiry, the object (state, generation,
    counts, expiry, notifications) stays exactly as it is and no call is
    let in (no token joins the calls in flight). *)
Theorem open_is_inert : forall calls s s',
  state_ (breaker s) = STATE_OPEN ->
  Forall (fun c => call_time c <= expiry_ (breaker s)) calls ->
  run s calls = Some s' ->
  breaker s' = breaker s
  /\ (forall token, In token (in_flight s') -> In token (in_flight s)).
Proof.
  induction calls as [|c rest IH]; intros s s' Hst Hall Hrun;
    cbn [run] in Hrun.
  - injection Hrun as <-. auto.
  - inversion Hall as [|? ? Hc Hrest]; subst.
    destruct (step s c) as [s1|] eqn:E; [|discriminate].
    destruct (step_open_inert _ _ _ Hst Hc E) as [Hb Hin].
    destruct (IH s1 s') as [Hb' Hin'].
    + rewrite Hb. exact Hst.
    + rewrite Hb. exact Hrest.
    + exact Hrun.
    + split; [congruence | auto].
Qed.

Lemma open_is_inert_witness :
  run (mkSystem open_waiting [4])
      [CallBefore 10; CallAfter 20 4 true; CallGetState 100]
  = Some (mkSystem open_waiting [])
  /\ breaker (mkSystem open_waiting []) = open_waiting.
Proof.
  split; [reflexivity|].
  apply (open_is_inert
           [CallBefore 10; CallAfter 20 4 true; CallGetState 100]
           (mkSystem open_waiting [4]) (mkSystem open_waiting [])).
  - reflexivity.
  - repeat constructor; cbn; lia.
  - reflexivity.
Defined.

(** ** What a report can and cannot do *)

(** X3.  A reported success never opens the breaker and a reported failure
    never closes it, whatever the token: if the breaker is Open after
    [afterRequest(token, true)] it was Open and unexpired before and the
    call changed nothing; if it is Closed after [afterRequest(token, false)]
    it was Closed before. *)
Theorem report_direction : forall cb now token,
  (state_ (final (afterRequest cb now token true)) = STATE_OPEN ->
   state_ cb = STATE_OPEN /\ now <= expiry_ cb
   /\ final (afterRequest cb now token true) = cb)
  /\ (state_ (final (afterRequest cb now token false)) = STATE_CLOSED ->
      state_ cb = STATE_CLOSED).
Proof.
  intros cb now token. destruct cb as [s st g c e n].
  cbn [state_ expiry_]. split; intro H.
  - destruct st.
    + exfalso. revert H. unfold afterRequest. run_breaker.
      split_ifs; cbn; discriminate.
    + exfalso. revert H. unfold afterRequest. run_breaker.
      split_ifs; cbn; discriminate.
    + destruct (e <? now) eqn:E.
      * exfalso. revert H. unfold afterRequest. run_breaker. rewrite E.
        split_ifs; cbn; discriminate.
      * apply Z.ltb_ge in E. split; [reflexivity|]. split; [exact E|].
        unfold afterRequest.
        rewrite (currentState_unchanged
                   (mkCircuitBreaker s STATE_OPEN g c e n) now)
          by (right; left; auto).
        cbn. destruct (negb (g =? token)); reflexivity.
  - destruct st; [reflexivity | exfalso | exfalso];
      revert H; unfold afterRequest; run_breaker;
      split_ifs; cbn; discriminate.
Qed.

Lemma report_direction_witness :
  state_ open_waiting = STATE_OPEN /\ 50 <= expiry_ open_waiting
  /\ final (afterRequest open_waiting 50 4 true) = open_waiting.
Proof.
  apply (proj1 (report_direction open_waiting 50 4)). reflexivity.
Defined.

(** ** The notifications follow the state diagram *)

Ltac path_cases :=
  unfold diagram_path; cbn;
  repeat match goal with
         | |- _ /\ _ => split
         | |- Forall _ (_ :: _) => constructor
         end;
  auto; try discriminate.

Lemma currentState_path : forall cb now,
  diagram_path cb -> diagram_path (snd (currentState cb now)).
Proof.
  intros cb now (Hh & Hall & Hch). destruct cb as [s st g c e n].
  cbn in Hh, Hall, Hch. run_breaker. rewrite ?Hh.
  destruct st; split_ifs; path_cases.
Qed.

Lemma beforeRequest_path : forall cb now,
  diagram_path cb -> diagram_path (snd (beforeRequest cb now)).
Proof.
  intros cb now H. apply (currentState_path cb now) in H.
  unfold beforeRequest.
  destruct (currentState cb now) as [[gen st] cb1]. cbn [snd] in *.
  split_ifs; exact H.
Qed.

Lemma with_counts_path : forall c cb,
  diagram_path cb -> diagram_path (with_counts c cb).
Proof. intros c cb H. exact H. Qed.

Lemma setState_path : forall cb st now,
  diagram_path cb -> legal_change (state_ cb) st = true ->
  diagram_path (setState cb st now).
Proof.
  intros cb st now (Hh & Hall & Hch) Hlegal. destruct cb as [s st0 g c e n].
  cbn in Hh, Hall, Hch, Hlegal. run_breaker. rewrite ?Hh.
  destruct st0, st; try discriminate; split_ifs; path_cases; congruence.
Qed.

Lemma onSuccess_path : forall cb now,
  diagram_path cb -> diagram_path (onSuccess cb (state_ cb) now).
Proof.
  intros cb now H. unfold onSuccess. destruct (state_ cb) eqn:Hst;
    try exact H.
  cbv zeta. split_ifs; [|exact H].
  apply setState_path; [exact H|]. cbn. rewrite Hst. reflexivity.
Qed.

Lemma onFailure_path : forall cb now,
  diagram_path cb -> diagram_path (final (onFailure cb (state_ cb) now)).
Proof.
  intros cb now H. unfold onFailure. destruct (state_ cb) eqn:Hst;
    cbv zeta; cbn [final]; try exact H.
  - destruct (ready_to_trip _) as [trip|]; cbn [final]; [|exact H].
    destruct (trip _); cbn [final]; [|exact H].
    apply setState_path; [exact H|]. cbn. rewrite Hst. reflexivity.
  - apply setState_path; [exact H|]. rewrite Hst. reflexivity.
Qed.

Lemma afterRequest_path : forall cb now token success,
  diagram_path cb ->
  diagram_path (final (afterRequest cb now token success)).
Proof.
  intros cb now token success H. apply (currentState_path cb now) in H.
  unfold afterRequest.
  destruct (currentState cb now) as [[gen st] cb1] eqn:E.
  apply currentState_eq in E. destruct E as (_ & -> & _).
  cbn [snd] in H.
  destruct (negb (gen =? token)); [exact H|].
  destruct success; [apply onSuccess_path | apply onFailure_path]; exact H.
Qed.

Lemma step_path : forall s c s',
  step s c = Some s' -> diagram_path (breaker s) -> diagram_path (breaker s').
Proof.
  intros s c s' Hstep H.
  destruct c as [now | now token success | now]; cbn [step] in Hstep.
  - apply (beforeRequest_path _ now) in H.
    destruct (beforeRequest (breaker s) now) as [[err gen] cb'].
    destruct (err =? ResultCodeOK); injection Hstep as <-; exact H.
  - destruct (existsb (Z.eqb token) (in_flight s)); [|discriminate].
    injection Hstep as <-. apply afterRequest_path. exact H.
  - injection Hstep as <-. apply (currentState_path _ now). exact H.
Qed.

(** X4.  When an [on_state_change] callback is installed, the calls made
    to it up to any point of any run, read from the oldest to the newest,
    form a path of the state diagram from Closed to the current state:
    each carries the configured name and is one of Closed to Open, Open to
    Half-Open, Half-Open to Open and Half-Open to Closed, and each starts
    where the previous one ended. *)
Theorem notifications_follow_diagram : forall st now calls s,
  on_state_change st = true ->
  run (boot st now) calls = Some s ->
  Forall (fun change : StateChange =>
            fst (fst change) = name st
            /\ legal_change (snd (fst change)) (snd change) = true)
         (notified_ (breaker s))
  /\ chained (state_ (breaker s)) (notified_ (breaker s)).
Proof.
  intros st now calls s Hh Hrun.
  assert (Hgen : forall calls s0 s1,
             run s0 calls = Some s1 ->
             diagram_path (breaker s0) -> diagram_path (breaker s1)).
  { clear. induction calls as [|c rest IH]; intros s0 s1 Hrun H;
      cbn [run] in Hrun.
    - injection Hrun as <-. exact H.
    - destruct (step s0 c) as [s2|] eqn:E; [|discriminate].
      apply (IH _ _ Hrun). apply (step_path _ _ _ E H). }
  destruct (newCircuitBreaker_fields st now)
    as (_ & _ & _ & Hn & _ & Ho & Hs & _ & _ & _ & Hl).
  assert (H0 : diagram_path (breaker (boot st now))).
  { unfold diagram_path. cbn [boot breaker]. rewrite Ho, Hl, Hs.
    repeat split; [exact Hh | constructor]. }
  destruct (Hgen _ _ _ Hrun H0) as (_ & Hall & Hch).
  rewrite (run_settings _ _ _ Hrun) in Hall. cbn [boot breaker] in Hall.
  rewrite Hn in Hall. split; assumption.
Qed.

Lemma notifications_follow_diagram_witness :
  exists s,
    run (boot eager_settings 0)
        [CallBefore 1; CallAfter 2 1 false; CallGetState (3 + seconds 60)]
    = Some s
    /\ chained (state_ (breaker s)) (notified_ (breaker s)).
Proof.
  eexists. split; [vm_compute; reflexivity|].
  refine (proj2 (notifications_follow_diagram eager_settings 0
                   [CallBefore 1; CallAfter 2 1 false;
                    CallGetState (3 + seconds 60)] _ _ _)).
  - reflexivity.
  - vm_compute. reflexivity.
Defined.

(** ** The trial cap of the Half-Open state *)

Ltac cap_cases :=
  unfold trial_cap; cbn;
  repeat match goal with
         | |- _ /\ _ => split
         | |- _ -> _ => intro
         end;
  try discriminate; try assumption; try lia.

Lemma trial_cap_currentState : forall cb tokens now,
  trial_cap cb tokens ->
  1 <= max_requests (settings_ cb) ->
  generation_ cb < 2 ^ 64 - 1 ->
  trial_cap (snd (currentState cb now)) tokens
  /\ generation_ (snd (currentState cb now)) <= generation_ cb + 1.
Proof.
  intros cb tokens now (Hg & Hall & Hhalf) Hmax Hlt.
  destruct cb as [s st g c e n]. cbn in Hg, Hall, Hhalf, Hmax, Hlt.
  assert (Hw : wrap64 (g + 1) = g + 1) by (apply wrap64_small; lia).
  assert (Hp : pending (g + 1) tokens = 0)
    by (apply (pending_ahead g); [exact Hall | lia]).
  assert (Hf : Forall (fun token => token <= g + 1) tokens)
    by (eapply Forall_impl; [|exact Hall]; cbn; intros; lia).
  run_breaker. rewrite ?Hw.
  destruct st.
  - split_ifs; cap_cases.
  - specialize (Hhalf eq_refl). cap_cases; tauto.
  - split_ifs; cbn; rewrite ?Hw; cap_cases.
Qed.

Lemma trial_cap_beforeRequest : forall cb tokens now,
  trial_cap cb tokens ->
  1 <= max_requests (settings_ cb) < 2 ^ 32 ->
  generation_ cb < 2 ^ 64 - 1 ->
  trial_cap (snd (beforeRequest cb now))
            (if fst (fst (beforeRequest cb now)) =? ResultCodeOK
             then snd (fst (beforeRequest cb now)) :: tokens
             else tokens).
Proof.
  intros cb tokens now H Hmax Hlt.
  destruct (trial_cap_currentState cb tokens now H) as [H1 _]; try lia.
  pose proof (currentState_settings cb now) as Hs.
  unfold beforeRequest.
  destruct (currentState cb now) as [[gen st] cb1] eqn:E.
  apply currentState_eq in E. destruct E as (-> & -> & _).
  cbn [snd] in H1, Hs. rewrite <- Hs in Hmax. clear Hs H Hlt cb.
  destruct H1 as (Hg & Hall & Hhalf).
  destruct cb1 as [s st g c e n]. cbn in Hg, Hall, Hhalf, Hmax. cbn.
  pose proof (pending_cons_same g tokens) as Hp.
  pose proof (pending_nonneg g tokens) as Hp0.
  assert (Hf : Forall (fun token => token <= g) (g :: tokens))
    by (constructor; [lia | exact Hall]).
  destruct st; cbn.
  - cap_cases.
  - specialize (Hhalf eq_refl).
    destruct (max_requests s <=? Counts.requests c) eqn:Er; cbn.
    + cap_cases; tauto.
    + apply Z.leb_gt in Er.
      assert (Hw : wrap32 (Counts.requests c + 1) = Counts.requests c + 1)
        by (apply wrap32_small; lia).
      unfold trial_cap. cbn. rewrite Hw.
      repeat split; try tauto; lia.
  - cap_cases.
Qed.

Lemma trial_cap_report : forall cb tokens now token (success : bool),
  trial_cap cb tokens ->
  existsb (Z.eqb token) tokens = true ->
  1 <= max_requests (settings_ cb) < 2 ^ 32 ->
  generation_ cb < 2 ^ 64 - 1 ->
  trial_cap
    (if negb (generation_ cb =? token) then cb
     else if success then onSuccess cb (state_ cb) now
          else final (onFailure cb (state_ cb) now))
    (remove_first token tokens).
Proof.
  intros cb tokens now token success (Hg & Hall & Hhalf) Hin Hmax Hlt.
  destruct cb as [s st g c e n]. cbn in Hg, Hall, Hhalf, Hmax, Hlt.
  set (rest := remove_first token tokens).
  assert (Hall' : Forall (fun t => t <= g) rest)
    by (apply Forall_remove_first; exact Hall).
  assert (Hw : wrap64 (g + 1) = g + 1) by (apply wrap64_small; lia).
  assert (Hp1 : pending (g + 1) rest = 0)
    by (apply (pending_ahead g); [exact Hall' | lia]).
  assert (Hf1 : Forall (fun t => t <= g + 1) rest)
    by (eapply Forall_impl; [|exact Hall']; cbn; intros; lia).
  pose proof (pending_nonneg g rest) as Hp0.
  assert (Hrem : pending g rest
                 = if token =? g then pending g tokens - 1
                   else pending g tokens).
  { unfold rest. rewrite pending_remove_first, Hin. reflexivity. }
  cbn [generation_ state_].
  destruct (g =? token) eqn:Et; cbn [negb].
  - apply Z.eqb_eq in Et. subst token. rewrite Z.eqb_refl in Hrem.
    destruct st.
    + destruct success.
      * run_breaker. cap_cases.
      * run_breaker. destruct (ready_to_trip s) as [trip|]; cbn.
        -- split_ifs; cbn; rewrite ?Hw; cap_cases.
        -- cap_cases.
    + specialize (Hhalf eq_refl). destruct c as [r ts tf cs cf].
      cbn in Hhalf.
      destruct Hhalf as (He & Htf & Hcf & Hts & Hcs & Hlt' & Hle & Hr).
      subst cs. destruct success.
      * run_breaker.
        assert (Hw32 : wrap32 (ts + 1) = ts + 1)
          by (apply wrap32_small; lia).
        rewrite !Hw32.
        destruct (max_requests s <=? ts + 1) eqn:Em.
        -- split_ifs; cbn; rewrite ?Hw; cap_cases.
        -- apply Z.leb_gt in Em. cap_cases.
      * run_breaker. split_ifs; cbn; rewrite ?Hw; cap_cases.
    + destruct success; run_breaker; cap_cases.
  - apply Z.eqb_neq in Et.
    assert (Hne : (token =? g) = false) by (apply Z.eqb_neq; congruence).
    rewrite Hne in Hrem.
    unfold trial_cap. cbn. split; [exact Hg|]. split; [exact Hall'|].
    intro Hst. specialize (Hhalf Hst). fold rest. rewrite Hrem. exact Hhalf.
Qed.

Lemma trial_cap_afterRequest : forall cb tokens now token success,
  trial_cap cb tokens ->
  existsb (Z.eqb token) tokens = true ->
  1 <= max_requests (settings_ cb) < 2 ^ 32 ->
  generation_ cb < 2 ^ 64 - 2 ->
  trial_cap (final (afterRequest cb now token success))
            (remove_first token tokens).
Proof.
  intros cb tokens now token success H Hin Hmax Hlt.
  destruct (trial_cap_currentState cb tokens now H) as [H1 Hg1]; try lia.
  pose proof (currentState_settings cb now) as Hs.
  unfold afterRequest.
  destruct (currentState cb now) as [[gen st] cb1] eqn:E.
  apply currentState_eq in E. destruct E as (-> & -> & _).
  cbn [snd] in H1, Hs, Hg1. rewrite <- Hs in Hmax.
  pose proof (trial_cap_report cb1 tokens now token success H1 Hin Hmax)
    as Hr.
  destruct (negb (generation_ cb1 =? token)); cbn [final].
  - apply Hr. lia.
  - destruct success; cbn [final]; apply Hr; lia.
Qed.

Lemma step_trial_cap : forall s c s',
  step s c = Some s' ->
  generation_unsaturated s ->
  1 <= max_requests (settings_ (breaker s)) < 2 ^ 32 ->
  trial_cap (breaker s) (in_flight s) ->
  trial_cap (breaker s') (in_flight s').
Proof.
  intros s c s' Hstep Hgen Hmax H. unfold generation_unsaturated in Hgen.
  destruct c as [now | now token success | now]; cbn [step] in Hstep.
  - pose proof (trial_cap_beforeRequest _ _ now H Hmax) as Hb.
    destruct (beforeRequest (breaker s) now) as [[err gen] cb'].
    cbn [fst snd] in Hb.
    destruct (err =? ResultCodeOK); injection Hstep as <-; apply Hb; lia.
  - destruct (existsb (Z.eqb token) (in_flight s)) eqn:Ein; [|discriminate].
    injection Hstep as <-. cbn [breaker in_flight].
    apply trial_cap_afterRequest; assumption.
  - injection Hstep as <-.
    apply (trial_cap_currentState _ _ now H); lia.
Qed.

Lemma run_trial_cap : forall calls s s',
  run s calls = Some s' ->
  Forall generation_unsaturated (visited s calls) ->
  1 <= max_requests (settings_ (breaker s)) < 2 ^ 32 ->
  trial_cap (breaker s) (in_flight s) ->
  trial_cap (breaker s') (in_flight s').
Proof.
  induction calls as [|c rest IH]; intros s s' Hrun Hv Hmax H;
    cbn [run visited] in *.
  - injection Hrun as <-. exact H.
  - inversion Hv as [|? ? Hs Hrest]; subst.
    destruct (step s c) as [s1|] eqn:E; [|discriminate].
    apply (IH s1 s' Hrun Hrest).
    + rewrite (step_settings _ _ _ E). exact Hmax.
    + apply (step_trial_cap _ _ _ E Hs Hmax H).
Qed.

(** X5.  The trial cap.  On a breaker built with a [uint32_t]
    [max_requests], in every Half-Open state reached by calls that follow
    the [Execute] protocol (before the 64-bit generation counter could
    wrap), the trial calls of the current generation that are in flight
    plus the successes already tallied never exceed [max_requests]; and
    there the expiry is the zero timestamp, no failure is tallied, and all
    tallied successes form the streak, which is still below
    [max_requests]. *)
Theorem half_open_trial_cap : forall st now calls s,
  is_uint32 (max_requests st) ->
  run (boot st now) calls = Some s ->
  Forall generation_unsaturated (visited (boot st now) calls) ->
  state_ (breaker s) = STATE_HALF_OPEN ->
  pending (generation_ (breaker s)) (in_flight s)
    + Counts.total_successes (counts_ (breaker s))
  <= max_requests (settings_ (breaker s))
  /\ Counts.requests (counts_ (breaker s))
     <= max_requests (settings_ (breaker s))
  /\ expiry_ (breaker s) = 0
  /\ Counts.total_failures (counts_ (breaker s)) = 0
  /\ Counts.consecutive_failures (counts_ (breaker s)) = 0
  /\ Counts.consecutive_successes (counts_ (breaker s))
     = Counts.total_successes (counts_ (breaker s))
  /\ Counts.total_successes (counts_ (breaker s))
     < max_requests (settings_ (breaker s)).
Proof.
  intros st now calls s Hu Hrun Hv Hst.
  destruct (newCircuitBreaker_fields st now)
    as (Hm & _ & _ & _ & _ & _ & Hs & Hc & Hg & _).
  assert (Hmax : 1 <= max_requests (settings_ (breaker (boot st now)))
                 < 2 ^ 32).
  { cbn [boot breaker]. rewrite Hm. unfold is_uint32 in Hu.
    destruct (max_requests st =? 0) eqn:E; [lia|].
    apply Z.eqb_neq in E. lia. }
  assert (H0 : trial_cap (breaker (boot st now)) (in_flight (boot st now))).
  { unfold trial_cap. cbn [boot breaker in_flight]. rewrite Hs, Hg.
    repeat split; try lia; try constructor; discriminate. }
  destruct (run_trial_cap calls _ _ Hrun Hv Hmax H0) as (_ & _ & Hhalf).
  destruct (Hhalf Hst) as (He & Htf & Hcf & Hts & Hcs & Hlt & Hle & Hr).
  repeat split; try assumption; lia.
Qed.

Lemma half_open_trial_cap_witness :
  exists s,
    run (boot eager_settings 0)
        [CallBefore 1; CallAfter 2 1 false; CallBefore (3 + seconds 60)]
    = Some s
    /\ pending (generation_ (breaker s)) (in_flight s)
         + Counts.total_successes (counts_ (breaker s))
       <= max_requests (settings_ (breaker s)).
Proof.
  eexists. split; [vm_compute; reflexivity|].
  refine (proj1 (half_open_trial_cap eager_settings 0
                   [CallBefore 1; CallAfter 2 1 false;
                    CallBefore (3 + seconds 60)] _ _ _ _ _)).
  - unfold is_uint32. cbn. lia.
  - vm_compute. reflexivity.
  - repeat constructor; vm_compute; reflexivity.
  - reflexivity.
Defined.

(** ** The failure streak under the default predicate *)

Ltac ltb_facts :=
  repeat match goal with
         | H : (_ <? _) = false |- _ => apply Z.ltb_ge in H
         | H : (_ <? _) = true |- _ => apply Z.ltb_lt in H
         end.

Lemma streak_bound_currentState : forall cb now,
  0 <= Counts.consecutive_failures (counts_ cb) <= 5 ->
  0 <= Counts.consecutive_failures (counts_ (snd (currentState cb now)))
    <= 5.
Proof.
  intros cb now H.
  destruct (currentState_evolves cb now) as [_ Hc | _ Hc]; rewrite Hc;
    [exact H | cbn; lia].
Qed.

Lemma streak_bound_afterRequest : forall cb now token success,
  ready_to_trip (settings_ cb) = Some defaultReadyToTrip ->
  0 <= Counts.consecutive_failures (counts_ cb) <= 5 ->
  0 <= Counts.consecutive_failures
         (counts_ (final (afterRequest cb now token success))) <= 5.
Proof.
  intros cb now token success Hrt H.
  apply (streak_bound_currentState cb now) in H.
  pose proof (currentState_settings cb now) as Hs.
  unfold afterRequest.
  destruct (currentState cb now) as [[gen st] cb1] eqn:E.
  apply currentState_eq in E. destruct E as (_ & -> & _).
  cbn [snd] in H, Hs. rewrite <- Hs in Hrt. clear Hs cb.
  destruct (negb (gen =? token)); [exact H|].
  destruct cb1 as [s st g [r ts tf cs cf] e n]. cbn in H, Hrt.
  pose proof (wrap32_range (cf + 1)) as Hw. unfold is_uint32 in Hw.
  destruct success, st; run_breaker; rewrite ?Hrt;
    unfold defaultReadyToTrip; cbn;
    split_ifs; cbn; ltb_facts; lia.
Qed.

Lemma streak_bound_step : forall s c s',
  step s c = Some s' ->
  ready_to_trip (settings_ (breaker s)) = Some defaultReadyToTrip ->
  0 <= Counts.consecutive_failures (counts_ (breaker s)) <= 5 ->
  0 <= Counts.consecutive_failures (counts_ (breaker s')) <= 5.
Proof.
  intros s c s' Hstep Hrt H.
  destruct c as [now | now token success | now]; cbn [step] in Hstep.
  - apply (streak_bound_currentState _ now) in H.
    unfold beforeRequest in Hstep.
    destruct (currentState (breaker s) now) as [[gen st] cb1].
    cbn [snd] in H.
    revert Hstep. split_ifs; cbn; intro Hstep; injection Hstep as <-;
      exact H.
  - destruct (existsb (Z.eqb token) (in_flight s)); [|discriminate].
    injection Hstep as <-. apply streak_bound_afterRequest; assumption.
  - injection Hstep as <-. apply (streak_bound_currentState _ now H).
Qed.

(** X6.  A breaker built without a trip predicate of its own (so with
    [defaultReadyToTrip]) never shows more than five consecutive failures:
    in every state of every run [0 <= consecutive_failures <= 5], because
    the sixth failure in a row opens the breaker and clears the counts in
    the same call. *)
Theorem default_streak_bound : forall st now calls s,
  ready_to_trip st = None ->
  run (boot st now) calls = Some s ->
  0 <= Counts.consecutive_failures (counts_ (breaker s)) <= 5.
Proof.
  intros st now calls s Hnone Hrun.
  destruct (newCircuitBreaker_fields st now)
    as (_ & _ & Hr & _ & _ & _ & _ & Hc & _).
  rewrite Hnone in Hr.
  assert (Hgen : forall calls s0 s1,
             run s0 calls = Some s1 ->
             ready_to_trip (settings_ (breaker s0))
             = Some defaultReadyToTrip ->
             0 <= Counts.consecutive_failures (counts_ (breaker s0)) <= 5 ->
             0 <= Counts.consecutive_failures (counts_ (breaker s1)) <= 5).
  { clear. induction calls as [|c rest IH]; intros s0 s1 Hrun Hrt H;
      cbn [run] in Hrun.
    - injection Hrun as <-. exact H.
    - destruct (step s0 c) as [s2|] eqn:E; [|discriminate].
      apply (IH _ _ Hrun).
      + rewrite (step_settings _ _ _ E). exact Hrt.
      + apply (streak_bound_step _ _ _ E Hrt H). }
  apply (Hgen _ _ _ Hrun).
  - exact Hr.
  - cbn [boot breaker]. rewrite Hc. cbn. lia.
Qed.

Lemma default_streak_bound_witness :
  0 <= Counts.consecutive_failures (Counts.mk 1 0 1 0 1) <= 5.
Proof.
  exact (default_streak_bound default_settings 0
           [CallBefore 1; CallAfter 2 1 false]
           (mkSystem
              (mkCircuitBreaker
                 (mkSettings EmptyString 1 0 (seconds 60)
                             (Some defaultReadyToTrip) false)
                 STATE_CLOSED 1 (Counts.mk 1 0 1 0 1) 0 [])
              [])
           eq_refl eq_refl).
Defined.

(** ** The reserved codes *)



(** ** Recovery from Half-Open *)

Lemma succeeds_app : forall a b cb,
  succeeds cb (a ++ b) = succeeds (succeeds cb a) b.
Proof.
  induction a as [|[now1 now2] a IH]; intros b cb; simpl;
    [reflexivity | apply IH].
Qed.

(** One sequential successful trial call in Half-Open. *)
Lemma succeed_half_open : forall cb now1 now2 k,
  state_ cb = STATE_HALF_OPEN ->
  counts_ cb = Counts.mk k k 0 k 0 ->
  0 <= k < max_requests (settings_ cb) ->
  max_requests (settings_ cb) < 2 ^ 32 ->
  breaker_of (succeed cb now1 now2)
  = (if max_requests (settings_ cb) <=? k + 1
     then mkCircuitBreaker (settings_ cb) STATE_CLOSED
            (wrap64 (generation_ cb + 1)) Counts.zero
            (if interval (settings_ cb) =? 0 then zero_time
             else now2 + interval (settings_ cb))
            (if on_state_change (settings_ cb)
             then (name (settings_ cb), STATE_HALF_OPEN, STATE_CLOSED)
                    :: notified_ cb
             else notified_ cb)
     else with_counts (Counts.mk (k + 1) (k + 1) 0 (k + 1) 0) cb).
Proof.
  intros cb now1 now2 k Hst Hc Hk Hm.
  destruct cb as [s st g c e n]. cbn in Hst, Hc, Hk, Hm. subst st c.
  assert (Hw : wrap32 (k + 1) = k + 1) by (apply wrap32_small; lia).
  assert (Hlt : (max_requests s <=? k) = false) by (apply Z.leb_gt; lia).
  unfold succeed, Execute, beforeRequest, afterRequest.
  run_breaker. cbn. rewrite Hlt. cbn. rewrite Z.eqb_refl. cbn.
  rewrite !Hw.
  destruct (max_requests s <=? k + 1); cbn; [|reflexivity].
  destruct (interval s =? 0), (on_state_change s); reflexivity.
Qed.

Lemma succeeds_below_cap : forall nows cb k,
  state_ cb = STATE_HALF_OPEN ->
  counts_ cb = Counts.mk k k 0 k 0 ->
  0 <= k ->
  k + Z.of_nat (List.length nows) < max_requests (settings_ cb) ->
  max_requests (settings_ cb) < 2 ^ 32 ->
  succeeds cb nows
  = with_counts (Counts.mk (k + Z.of_nat (List.length nows))
                           (k + Z.of_nat (List.length nows)) 0
                           (k + Z.of_nat (List.length nows)) 0) cb.
Proof.
  induction nows as [|[now1 now2] rest IH]; intros cb k Hst Hc Hk Hlt Hm.
  - cbn. rewrite Z.add_0_r, <- Hc. destruct cb; reflexivity.
  - cbn [succeeds]. cbn [List.length] in Hlt |- *.
    rewrite (succeed_half_open cb now1 now2 k) by (auto; lia).
    destruct (max_requests (settings_ cb) <=? k + 1) eqn:E;
      [apply Z.leb_le in E; lia|].
    rewrite (IH _ (k + 1)); cbn; auto; try lia.
    unfold with_counts. cbn. do 2 f_equal; lia.
Qed.

(** X8.  Sequential successful calls on a breaker that has just become
    Half-Open (zero counts), with [1 <= max_requests < 2^32]: after fewer
    than [max_requests] of them it is still Half-Open in the same
    generation with counts [(n, n, 0, n, 0)]; the [max_requests]-th closes
    it, in the next generation, with zero counts and the expiry of a fresh
    Closed window ([now + interval], or zero when [interval] is [0]). *)
Theorem half_open_recovery : forall cb nows,
  state_ cb = STATE_HALF_OPEN ->
  counts_ cb = Counts.zero ->
  1 <= max_requests (settings_ cb) < 2 ^ 32 ->
  (Z.of_nat (List.length nows) < max_requests (settings_ cb) ->
   succeeds cb nows
   = with_counts (Counts.mk (Z.of_nat (List.length nows))
                            (Z.of_nat (List.length nows)) 0
                            (Z.of_nat (List.length nows)) 0) cb)
  /\ (Z.of_nat (List.length nows) = max_requests (settings_ cb) ->
      state_ (succeeds cb nows) = STATE_CLOSED
      /\ counts_ (succeeds cb nows) = Counts.zero
      /\ generation_ (succeeds cb nows) = wrap64 (generation_ cb + 1)
      /\ expiry_ (succeeds cb nows)
         = (if interval (settings_ cb) =? 0 then zero_time
            else snd (last nows (0, 0)) + interval (settings_ cb))).
Proof.
  intros cb nows Hst Hc Hm. split.
  - intro Hlt.
    rewrite (succeeds_below_cap nows cb 0); auto; try lia.
  - intro Hlen.
    assert (Hne : nows <> []) by (intro; subst; simpl in Hlen; lia).
    destruct (exists_last Hne) as (first & [now1 now2] & ->).
    rewrite last_last. cbn [snd].
    rewrite length_app in Hlen. cbn [List.length] in Hlen.
    rewrite succeeds_app. cbn [succeeds].
    rewrite (succeeds_below_cap first cb 0); auto; try lia.
    rewrite (succeed_half_open _ now1 now2 (Z.of_nat (List.length first)));
      cbn [with_counts state_ counts_ settings_]; auto; try lia.
    destruct (max_requests (settings_ cb)
              <=? Z.of_nat (List.length first) + 1) eqn:E;
      [|apply Z.leb_gt in E; lia].
    cbn. repeat split.
Qed.

Lemma half_open_recovery_witness :
  state_ (succeeds half_open_three [(1, 2); (3, 4); (5, 6)]) = STATE_CLOSED
  /\ counts_ (succeeds half_open_three [(1, 2); (3, 4)])
     = Counts.mk 2 2 0 2 0.
Proof.
  split.
  - apply (proj2 (half_open_recovery half_open_three
                    [(1, 2); (3, 4); (5, 6)] eq_refl eq_refl
                    ltac:(cbn; lia))).
    reflexivity.
  - rewrite (proj1 (half_open_recovery half_open_three [(1, 2); (3, 4)]
                      eq_refl eq_refl ltac:(cbn; lia)));
      [reflexivity | cbn; lia].
Defined.

(** ** Concurrent successful calls *)

Lemma existsb_repeat : forall token g k,
  existsb (Z.eqb token) (repeat g k) = true -> token = g /\ (0 < k)%nat.
Proof.
  intros token g k H. apply existsb_exists in H.
  destruct H as (x & Hin & Hx).
  pose proof (repeat_spec _ _ _ Hin) as Hxg. subst x.
  apply Z.eqb_eq in Hx. split; [exact Hx|].
  destruct k; [destruct Hin | lia].
Qed.

Lemma with_counts_twice : forall c1 c2 cb,
  with_counts c2 (with_counts c1 cb) = with_counts c2 cb.
Proof. intros c1 c2 cb. reflexivity. Qed.

Lemma run_successes_closed : forall calls s s' r k,
  state_ (breaker s) = STATE_CLOSED ->
  expiry_ (breaker s) = 0
  \/ Forall (fun c => call_time c <= expiry_ (breaker s)) calls ->
  forallb (fun c => negb (reports_failure c)) calls = true ->
  counts_ (breaker s) = Counts.mk r (r - k) 0 (r - k) 0 ->
  in_flight s = repeat (generation_ (breaker s)) (Z.to_nat k) ->
  0 <= k <= r ->
  r + count_calls is_before calls < 2 ^ 32 ->
  run s calls = Some s' ->
  breaker s'
  = with_counts
      (Counts.mk (r + count_calls is_before calls)
                 (r - k + count_calls is_after calls) 0
                 (r - k + count_calls is_after calls) 0)
      (breaker s)
  /\ in_flight s'
     = repeat (generation_ (breaker s))
              (Z.to_nat (k + count_calls is_before calls
                         - count_calls is_after calls))
  /\ count_calls is_after calls <= k + count_calls is_before calls.
Proof.
  induction calls as [|c rest IH];
    intros s s' r k Hst Hw Hok Hc Hfl Hk Hr Hrun.
  - cbn in Hrun. injection Hrun as <-. unfold count_calls. cbn.
    rewrite !Z.add_0_r, Z.sub_0_r, <- Hc.
    split; [destruct s as [[] ?]; reflexivity|]. split; [exact Hfl | lia].
  - cbn [forallb] in Hok. apply andb_prop in Hok. destruct Hok as [Hc0 Hok].
    assert (Hw' : expiry_ (breaker s) = 0
                  \/ call_time c <= expiry_ (breaker s)).
    { destruct Hw as [Hw | Hw]; [auto|]. inversion Hw; auto. }
    assert (Hwr : expiry_ (breaker s) = 0
                  \/ Forall (fun c => call_time c <= expiry_ (breaker s))
                            rest).
    { destruct Hw as [Hw | Hw]; [auto|]. inversion Hw; auto. }
    assert (Hcur : currentState (breaker s) (call_time c)
                   = (generation_ (breaker s), STATE_CLOSED, breaker s)).
    { rewrite <- Hst. apply currentState_unchanged. left. auto. }
    cbn [run] in Hrun.
    destruct c as [now | now token success | now];
      cbn [step call_time] in *.
    + rewrite (beforeRequest_cases _ _ _ _ _ Hcur) in Hrun.
      change (ResultCodeOK =? ResultCodeOK) with true in Hrun.
      cbv beta iota in Hrun.
      unfold count_calls in *. cbn [filter is_before is_after] in *.
      cbn [List.length] in *. rewrite Nat2Z.inj_succ in *.
      match type of Hrun with run ?s1 _ = _ =>
        assert (Hc1 : counts_ (breaker s1)
                      = Counts.mk (r + 1) (r + 1 - (k + 1)) 0
                                  (r + 1 - (k + 1)) 0);
        [|assert (Hfl1 : in_flight s1
                         = repeat (generation_ (breaker s1))
                                  (Z.to_nat (k + 1)));
          [|destruct (IH s1 s' (r + 1) (k + 1) Hst Hwr Hok Hc1 Hfl1)
              as (H1 & H2 & H3); [lia | lia | exact Hrun |]]]
      end.
      * cbn. rewrite Hc. unfold Counts.onRequest. cbn.
        rewrite wrap32_small by lia. f_equal; lia.
      * cbn. rewrite Hfl.
        replace (Z.to_nat (k + 1)) with (S (Z.to_nat k)) by lia.
        reflexivity.
      * rewrite H1, H2. cbn [breaker with_counts generation_].
        split; [|split; [|lia]].
        -- unfold with_counts. cbn. do 2 f_equal; lia.
        -- f_equal. lia.
    + destruct success; [|discriminate].
      destruct (existsb (Z.eqb token) (in_flight s)) eqn:Ein;
        [|discriminate].
      pose proof Ein as Ein'. rewrite Hfl in Ein'.
      apply existsb_repeat in Ein'. destruct Ein' as [-> Hpos].
      unfold afterRequest in Hrun. rewrite Hcur, Z.eqb_refl in Hrun.
      cbn [negb final onSuccess] in Hrun.
      unfold count_calls in *. cbn [filter is_before is_after] in *.
      cbn [List.length] in *. rewrite Nat2Z.inj_succ in *.
      match type of Hrun with run ?s1 _ = _ =>
        assert (Hc1 : counts_ (breaker s1)
                      = Counts.mk r (r - (k - 1)) 0 (r - (k - 1)) 0);
        [|assert (Hfl1 : in_flight s1
                         = repeat (generation_ (breaker s1))
                                  (Z.to_nat (k - 1)));
          [|destruct (IH s1 s' r (k - 1) Hst Hwr Hok Hc1 Hfl1)
              as (H1 & H2 & H3); [lia | lia | exact Hrun |]]]
      end.
      * cbn. rewrite Hc. unfold Counts.onSuccess. cbn.
        rewrite !wrap32_small by lia. f_equal; lia.
      * cbn. rewrite Hfl.
        replace (Z.to_nat k) with (S (Z.to_nat (k - 1))) by lia.
        cbn [repeat remove_first]. rewrite Z.eqb_refl. reflexivity.
      * rewrite H1, H2. cbn [breaker with_counts generation_].
        split; [|split; [|lia]].
        -- unfold with_counts. cbn. do 2 f_equal; lia.
        -- f_equal. lia.
    + change (snd (GetState (breaker s) now))
        with (snd (currentState (breaker s) now)) in Hrun.
      rewrite Hcur in Hrun. cbn [snd] in Hrun.
      unfold count_calls in *. cbn [filter is_before is_after] in *.
      destruct (IH _ s' r k Hst Hwr Hok Hc Hfl Hk Hr) as (H1 & H2 & H3).
      * destruct s; exact Hrun.
      * auto.
Qed.

(** X9.  No update is lost or counted twice.  Take any interleaving of
    calls on a freshly built breaker in which every report is a success,
    every clock reading lies inside the first Closed window (or
    [interval] is [0]), and fewer than [2^32] calls are let in.  With [b]
    the number of [beforeRequest] calls and [a] the number of
    [afterRequest] calls, the breaker ends as it was built but for the
    counts, which are [(b, a, 0, a, 0)], and [b - a] calls are still in
    flight, all holding token [1]. *)
Theorem concurrent_successes_counted : forall st now calls s,
  interval st = 0
  \/ Forall (fun c => call_time c <= now + interval st) calls ->
  forallb (fun c => negb (reports_failure c)) calls = true ->
  count_calls is_before calls < 2 ^ 32 ->
  run (boot st now) calls = Some s ->
  breaker s
  = with_counts
      (Counts.mk (count_calls is_before calls)
                 (count_calls is_after calls) 0
                 (count_calls is_after calls) 0)
      (newCircuitBreaker st now)
  /\ in_flight s
     = repeat 1 (Z.to_nat (count_calls is_before calls
                           - count_calls is_after calls))
  /\ count_calls is_after calls <= count_calls is_before calls.
Proof.
  intros st now calls s Hw Hok Hlt Hrun.
  destruct (newCircuitBreaker_fields st now)
    as (_ & _ & _ & _ & _ & _ & Hs & Hc & Hg & He & _).
  destruct (run_successes_closed calls (boot st now) s 0 0)
    as (H1 & H2 & H3); cbn [boot breaker in_flight]; auto; try lia.
  - rewrite He. destruct (interval st =? 0) eqn:E; [left; reflexivity|].
    destruct Hw as [Hw | Hw]; [apply Z.eqb_neq in E; contradiction|].
    right. exact Hw.
  - cbn [boot breaker in_flight] in H1, H2. rewrite Hg in H2.
    split; [exact H1|]. split; [exact H2 | lia].
Qed.

Lemma concurrent_successes_counted_witness :
  exists s,
    run (boot default_settings 0)
        [CallBefore 1; CallBefore 2; CallAfter 3 1 true; CallGetState 4]
    = Some s
    /\ counts_ (breaker s) = Counts.mk 2 1 0 1 0
    /\ in_flight s = [1].
Proof.
  eexists. split; [vm_compute; reflexivity|].
  destruct (concurrent_successes_counted default_settings 0
              [CallBefore 1; CallBefore 2; CallAfter 3 1 true;
               CallGetState 4]
              _ (or_introl eq_refl) eq_refl ltac:(vm_compute; reflexivity)
              ltac:(vm_compute; reflexivity))
    as (H1 & H2 & _).
  split; [rewrite H1; reflexivity | exact H2].
Defined.

(** ** Moving the expiry back instead of waiting *)

(** X10.  [pseudoSleep] of the test suite stands for elapsed time.  Unless
    it moves the expiry of a Closed breaker onto the zero timestamp, or is
    used on an Open breaker whose expiry is the zero timestamp (which it
    leaves alone), [currentState] at clock reading [now] after
    [pseudoSleep(period)] reports the same generation and state, and
    leaves the same counts and notifications, as [currentState] at
    [now + period] without it. *)
Theorem pseudoSleep_is_elapsed_time : forall cb period now,
  (state_ cb = STATE_CLOSED -> expiry_ cb <> period) ->
  (state_ cb = STATE_OPEN -> expiry_ cb <> 0) ->
  fst (currentState (pseudoSleep cb period) now)
  = fst (currentState cb (now + period))
  /\ counts_ (snd (currentState (pseudoSleep cb period) now))
     = counts_ (snd (currentState cb (now + period)))
  /\ notified_ (snd (currentState (pseudoSleep cb period) now))
     = notified_ (snd (currentState cb (now + period))).
Proof.
  intros cb period now Hclosed Hopen. destruct cb as [s st g c e n].
  cbn [state_ expiry_] in Hclosed, Hopen. unfold pseudoSleep. cbn [expiry_].
  destruct (e =? 0) eqn:E0; cbn [negb].
  - apply Z.eqb_eq in E0. subst e. destruct st.
    + run_breaker. cbn. auto.
    + run_breaker. auto.
    + exfalso. apply Hopen; reflexivity.
  - apply Z.eqb_neq in E0.
    assert (Hcmp : (e + -1 * period <? now) = (e <? now + period)).
    { destruct (e <? now + period) eqn:E1; ltb_facts;
        [apply Z.ltb_lt | apply Z.ltb_ge]; lia. }
    destruct st.
    + assert (Hnz : (e + -1 * period =? 0) = false)
        by (apply Z.eqb_neq; specialize (Hclosed eq_refl); lia).
      apply Z.eqb_neq in E0.
      run_breaker. rewrite Hnz, E0, Hcmp.
      destruct (e <? now + period); [|auto].
      destruct (interval s =? 0); auto.
    + run_breaker. auto.
    + run_breaker. rewrite Hcmp.
      destruct (e <? now + period); [|auto].
      destruct (on_state_change s); auto.
Qed.

Lemma pseudoSleep_is_elapsed_time_witness :
  fst (currentState (pseudoSleep open_expired 1) 100)
  = fst (currentState open_expired 101).
Proof.
  apply (pseudoSleep_is_elapsed_time open_expired 1 100).
  - discriminate.
  - intros _. discriminate.
Defined.

(** ** The generation as the name of an epoch *)

Lemma beforeRequest_epoch : forall cb now,
  0 <= generation_ cb < 2 ^ 64 - 2 ->
  generation_ cb <= generation_ (snd (beforeRequest cb now))
    <= generation_ cb + 2
  /\ (generation_ (snd (beforeRequest cb now)) = generation_ cb ->
      snd (beforeRequest cb now)
      = with_counts (counts_ (snd (beforeRequest cb now))) cb).
Proof.
  intros cb now Hg. destruct cb as [s st g c e n]. cbn in Hg.
  assert (Hw : wrap64 (g + 1) = g + 1) by (apply wrap64_small; lia).
  unfold beforeRequest. run_breaker. rewrite ?Hw.
  destruct st; split_ifs; cbn; rewrite ?Hw;
    (split; [lia | intro H; try reflexivity; exfalso; lia]).
Qed.

Lemma afterRequest_epoch : forall cb now token success,
  0 <= generation_ cb < 2 ^ 64 - 2 ->
  generation_ cb
    <= generation_ (final (afterRequest cb now token success))
    <= generation_ cb + 2
  /\ (generation_ (final (afterRequest cb now token success))
      = generation_ cb ->
      final (afterRequest cb now token success)
      = with_counts
          (counts_ (final (afterRequest cb now token success))) cb).
Proof.
  intros cb now token success Hg. destruct cb as [s st g c e n].
  cbn in Hg.
  assert (Hw : wrap64 (g + 1) = g + 1) by (apply wrap64_small; lia).
  assert (Hw2 : wrap64 (g + 1 + 1) = g + 1 + 1)
    by (apply wrap64_small; lia).
  unfold afterRequest. run_breaker. rewrite ?Hw, ?Hw2.
  destruct st, success; split_ifs; cbn; rewrite ?Hw, ?Hw2;
    try (destruct (ready_to_trip s) as [trip|]; cbn);
    split_ifs; cbn; rewrite ?Hw, ?Hw2;
    (split; [lia | intro H; try reflexivity; exfalso; lia]).
Qed.

Lemma step_epoch : forall s c s',
  step s c = Some s' ->
  0 <= generation_ (breaker s) < 2 ^ 64 - 2 ->
  generation_ (breaker s) <= generation_ (breaker s')
    <= generation_ (breaker s) + 2
  /\ (generation_ (breaker s') = generation_ (breaker s) ->
      breaker s' = with_counts (counts_ (breaker s')) (breaker s)).
Proof.
  intros s c s' Hstep Hg.
  destruct c as [now | now token success | now]; cbn [step] in Hstep.
  - pose proof (beforeRequest_epoch (breaker s) now Hg) as H.
    destruct (beforeRequest (breaker s) now) as [[err gen] cb'].
    cbn [snd] in H.
    destruct (err =? ResultCodeOK); injection Hstep as <-; exact H.
  - destruct (existsb (Z.eqb token) (in_flight s)); [|discriminate].
    injection Hstep as <-. apply afterRequest_epoch. exact Hg.
  - injection Hstep as <-.
    change (breaker
              {| breaker := snd (GetState (breaker s) now);
                 in_flight := in_flight s |})
      with (snd (currentState (breaker s) now)).
    destruct (breaker s) as [st0 st g c e n]. cbn in Hg.
    assert (Hw : wrap64 (g + 1) = g + 1) by (apply wrap64_small; lia).
    run_breaker. destruct st; split_ifs; cbn; rewrite ?Hw;
      (split; [lia | intro H; try reflexivity; exfalso; lia]).
Qed.

Lemma run_generation_monotone : forall calls s s',
  run s calls = Some s' ->
  0 <= generation_ (breaker s) ->
  Forall generation_unsaturated (visited s calls) ->
  generation_ (breaker s) <= generation_ (breaker s').
Proof.
  induction calls as [|c rest IH]; intros s s' Hrun Hg Hv;
    cbn [run visited] in *.
  - injection Hrun as <-. lia.
  - inversion Hv as [|? ? Hs Hrest]; subst.
    unfold generation_unsaturated in Hs.
    destruct (step s c) as [s1|] eqn:E; [|discriminate].
    destruct (step_epoch _ _ _ E) as [Hb1 _]; [lia|].
    specialize (IH s1 s' Hrun ltac:(lia) Hrest). lia.
Qed.

(** X11.  The generation names the epoch.  Along any run (before the
    64-bit counter could wrap) the generation never decreases and grows by
    at most two per call; and if it is the same at the end as at the
    start, then nothing but the counts has changed: state, expiry,
    settings and notifications are the same. *)
Theorem generation_is_epoch : forall calls s s',
  run s calls = Some s' ->
  0 <= generation_ (breaker s) ->
  Forall generation_unsaturated (visited s calls) ->
  generation_ (breaker s) <= generation_ (breaker s')
    <= generation_ (breaker s) + 2 * Z.of_nat (List.length calls)
  /\ (generation_ (breaker s') = generation_ (breaker s) ->
      breaker s' = with_counts (counts_ (breaker s')) (breaker s)).
Proof.
  induction calls as [|c rest IH]; intros s s' Hrun Hg Hv;
    cbn [run visited] in *.
  - injection Hrun as <-. cbn. split; [lia|].
    intros _. destruct (breaker s); reflexivity.
  - inversion Hv as [|? ? Hs Hrest]; subst.
    unfold generation_unsaturated in Hs.
    destruct (step s c) as [s1|] eqn:E; [|discriminate].
    destruct (step_epoch _ _ _ E) as [Hb1 He1]; [lia|].
    destruct (IH s1 s' Hrun) as [Hb2 He2]; [lia | exact Hrest |].
    cbn [List.length]. rewrite Nat2Z.inj_succ. split; [lia|].
    intro Heq.
    assert (H1 : generation_ (breaker s1) = generation_ (breaker s))
      by lia.
    pose proof (He1 H1) as E1. pose proof (He2 ltac:(lia)) as E2.
    etransitivity; [exact E2|].
    set (c' := counts_ (breaker s')). clearbody c'.
    rewrite E1. reflexivity.
Qed.

Lemma generation_is_epoch_witness :
  generation_ closed_second_generation
  <= generation_ (with_counts (Counts.mk 2 0 0 0 0) closed_second_generation)
  <= generation_ closed_second_generation + 2 * 1.
Proof.
  apply (generation_is_epoch [CallBefore 5]
           (mkSystem closed_second_generation [])
           (mkSystem (with_counts (Counts.mk 2 0 0 0 0)
                                  closed_second_generation) [2])).
  - reflexivity.
  - cbn. lia.
  - repeat constructor; vm_compute; reflexivity.
Defined.

(** X12.  A report that arrives after the generation has moved on leaves
    no trace.  If the generation at the end of a run differs from the one
    at its start (and the 64-bit counter is not about to wrap), then
    [afterRequest] with the token handed out at the start does exactly what
    [currentState] does: no tally, no transition of its own. *)
Theorem report_after_transition_is_dropped :
  forall calls s s' now success,
  run s calls = Some s' ->
  0 <= generation_ (breaker s) ->
  Forall generation_unsaturated (visited s calls) ->
  generation_unsaturated s' ->
  generation_ (breaker s') <> generation_ (breaker s) ->
  afterRequest (breaker s') now (generation_ (breaker s)) success
  = Done (snd (currentState (breaker s') now)).
Proof.
  intros calls s s' now success Hrun Hg Hv Hs' Hne.
  pose proof (run_generation_monotone calls s s' Hrun Hg Hv) as Hb.
  unfold generation_unsaturated in Hs'.
  destruct (step_epoch s' (CallGetState now)
              (mkSystem (snd (GetState (breaker s') now)) (in_flight s'))
              eq_refl) as [Hb' _]; [lia|].
  change (breaker
            {| breaker := snd (GetState (breaker s') now);
               in_flight := in_flight s' |})
    with (snd (currentState (breaker s') now)) in Hb'.
  unfold afterRequest.
  destruct (currentState (breaker s') now) as [[gen st] cb1] eqn:E.
  apply currentState_eq in E. destruct E as (-> & _ & _).
  cbn [snd] in *.
  destruct (generation_ cb1 =? generation_ (breaker s)) eqn:Eq;
    [apply Z.eqb_eq in Eq; lia | reflexivity].
Qed.

Lemma report_after_transition_is_dropped_witness :
  afterRequest
    (mkCircuitBreaker default_settings STATE_CLOSED 8 Counts.zero 0 [])
    200 7 false
  = Done (mkCircuitBreaker default_settings STATE_CLOSED 8 Counts.zero 0 []).
Proof.
  apply (report_after_transition_is_dropped
           [CallGetState 101]
           (mkSystem closed_expired [7])
           (mkSystem
              (mkCircuitBreaker default_settings STATE_CLOSED 8 Counts.zero
                                0 [])
              [7])
           200 false).
  - reflexivity.
  - cbn. lia.
  - repeat constructor; vm_compute; reflexivity.
  - vm_compute. reflexivity.
  - cbn. lia.
Defined.

(** ** Equality of counts and the names of the states *)

(** X13.  [Counts::operator==] holds exactly when the five fields agree,
    and [clear()] produces counts equal to default-constructed ones. *)
Theorem Counts_eqb_spec : forall a b,
  (Counts.eqb a b = true <-> a = b)
  /\ Counts.eqb (Counts.clear a) (newCounts 0 0 0 0 0) = true.
Proof.
  intros [r1 s1 f1 cs1 cf1] [r2 s2 f2 cs2 cf2]. split; [|reflexivity].
  unfold Counts.eqb. cbn. split.
  - intro H. repeat (apply andb_prop in H; destruct H as [H ?]).
    repeat match goal with
           | E : (_ =? _) = true |- _ => apply Z.eqb_eq in E
           end.
    congruence.
  - intro H. injection H as -> -> -> -> ->.
    rewrite !Z.eqb_refl. reflexivity.
Qed.

(** X14.  [StateString] gives the three states three different names, and
    the enumerators have the values [0], [1], [2] in the order Closed,
    Half-Open, Open: a state is known from its name and from its value. *)
Theorem State_names_distinct : forall a b,
  (StateString a = StateString b -> a = b)
  /\ (State_value a = State_value b -> a = b)
  /\ 0 <= State_value a <= 2.
Proof.
  intros [] []; cbn; repeat split; intro H;
    try reflexivity; try discriminate; lia.
Qed.

(** ** What the constructor fixed stays fixed *)

(** X15.  Settings are immutable after construction.  In every state of
    every run [GetName] is the name given to the constructor, [interval]
    and the presence of [on_state_change] are as given, [max_requests] and
    [timeout] are never [0], and [ready_to_trip] is set, so no
    [afterRequest] ends in [std::bad_function_call]. *)
Theorem settings_are_fixed : forall st now calls s,
  run (boot st now) calls = Some s ->
  settings_ (breaker s) = settings_ (newCircuitBreaker st now)
  /\ GetName (breaker s) = name st
  /\ interval (settings_ (breaker s)) = interval st
  /\ on_state_change (settings_ (breaker s)) = on_state_change st
  /\ max_requests (settings_ (breaker s)) <> 0
  /\ timeout (settings_ (breaker s)) <> 0
  /\ ready_to_trip (settings_ (breaker s)) <> None
  /\ forall t token success,
       afterRequest (breaker s) t token success
       = Done (final (afterRequest (breaker s) t token success)).
Proof.
  intros st now calls s Hrun.
  pose proof (run_settings _ _ _ Hrun) as Hs. cbn [boot breaker] in Hs.
  destruct (newCircuitBreaker_fields st now)
    as (Hm & Ht & Hr & Hn & Hi & Ho & _).
  assert (Hready : ready_to_trip (settings_ (breaker s)) <> None).
  { rewrite Hs, Hr. destruct (ready_to_trip st); discriminate. }
  unfold GetName. rewrite Hs.
  repeat split; try assumption.
  - rewrite Hm. destruct (max_requests st =? 0) eqn:E;
      [discriminate | apply Z.eqb_neq; exact E].
  - rewrite Ht. destruct (timeout st =? 0) eqn:E;
      [discriminate | apply Z.eqb_neq; exact E].
  - rewrite <- Hs. exact Hready.
  - intros t token success. apply afterRequest_Done. exact Hready.
Qed.

Lemma settings_are_fixed_witness :
  GetName
    (mkCircuitBreaker
       (mkSettings "cb" 1 0 (seconds 60) (Some (fun _ => true)) true)
       STATE_CLOSED 1 (Counts.mk 1 0 0 0 0) 0 [])
  = "cb"%string.
Proof.
  apply (settings_are_fixed eager_settings 0 [CallBefore 1]
           (mkSystem
              (mkCircuitBreaker
                 (mkSettings "cb" 1 0 (seconds 60) (Some (fun _ => true))
                             true)
                 STATE_CLOSED 1 (Counts.mk 1 0 0 0 0) 0 [])
              [1])).
  reflexivity.
Defined.

(** ** Successes and failures while Closed *)

Lemma succeed_closed : forall cb now1 now2,
  state_ cb = STATE_CLOSED ->
  expiry_ cb = 0 \/ (now1 <= expiry_ cb /\ now2 <= expiry_ cb) ->
  breaker_of (succeed cb now1 now2)
  = with_counts (Counts.onSuccess (Counts.onRequest (counts_ cb))) cb.
Proof.
  intros cb now1 now2 Hst He. destruct cb as [s st g c e n].
  cbn in Hst, He. subst st.
  assert (Hno : forall t, e = 0 \/ t <= e ->
            (if if e =? 0 then false else true then e <? t else false)
            = false).
  { intros t Ht. destruct (e =? 0) eqn:E0; [reflexivity|].
    apply Z.eqb_neq in E0. apply Z.ltb_ge. lia. }
  unfold succeed, Execute, beforeRequest, afterRequest. run_breaker.
  rewrite (Hno now1) by tauto. cbn. rewrite (Hno now2) by tauto.
  cbn. rewrite Z.eqb_refl. reflexivity.
Qed.

Lemma fails_sixth : forall nows cb,
  state_ cb = STATE_CLOSED ->
  ready_to_trip (settings_ cb) = Some defaultReadyToTrip ->
  Counts.consecutive_failures (counts_ cb) = 0 ->
  within_window cb nows ->
  Z.of_nat (List.length nows) = 6 ->
  state_ (fails cb nows) = STATE_OPEN
  /\ counts_ (fails cb nows) = Counts.zero.
Proof.
  intros nows cb Hst Hrt H0 Hw Hlen.
  assert (Hne : nows <> []) by (intro; subst; simpl in Hlen; lia).
  destruct (exists_last Hne) as (first & [now1 now2] & ->).
  rewrite length_app in Hlen. cbn [List.length] in Hlen.
  assert (Hw1 : within_window cb first).
  { destruct Hw as [Hw | Hw]; [left; exact Hw | right].
    apply Forall_app in Hw. tauto. }
  destruct (fails_below_threshold first cb)
    as (I1 & I2 & I3 & I4 & I5 & I6); auto; try lia.
  rewrite fails_app. cbn [fails].
  rewrite fail_closed.
  - rewrite I2, H0. rewrite wrap32_small by lia.
    replace (0 + Z.of_nat (List.length first) + 1) with 6 by lia.
    cbn. split; reflexivity.
  - exact I1.
  - rewrite I4. exact Hrt.
  - rewrite I5. destruct Hw as [Hw | Hw]; [left; exact Hw | right].
    apply Forall_app in Hw. destruct Hw as [_ Hw].
    inversion Hw; subst. assumption.
Qed.

(** X16.  One success forgives the streak.  On a Closed breaker with the
    default predicate, whatever its counts, after one successful call the
    next five failing calls (all inside the counting window) leave it
    Closed with [consecutive_failures] equal to their number, and only a
    sixth failing call opens it. *)
Theorem success_forgives_streak : forall cb now1 now2 nows,
  state_ cb = STATE_CLOSED ->
  ready_to_trip (settings_ cb) = Some defaultReadyToTrip ->
  within_window cb ((now1, now2) :: nows) ->
  (Z.of_nat (List.length nows) <= 5 ->
   state_ (fails (breaker_of (succeed cb now1 now2)) nows) = STATE_CLOSED
   /\ Counts.consecutive_failures
        (counts_ (fails (breaker_of (succeed cb now1 now2)) nows))
      = Z.of_nat (List.length nows))
  /\ (Z.of_nat (List.length nows) = 6 ->
      state_ (fails (breaker_of (succeed cb now1 now2)) nows) = STATE_OPEN).
Proof.
  intros cb now1 now2 nows Hst Hrt Hw.
  assert (He : expiry_ cb = 0 \/ (now1 <= expiry_ cb /\ now2 <= expiry_ cb)).
  { destruct Hw as [Hw | Hw]; [auto|]. inversion Hw; subst. auto. }
  rewrite (succeed_closed cb now1 now2 Hst He).
  set (cb1 := with_counts (Counts.onSuccess (Counts.onRequest (counts_ cb)))
                          cb).
  assert (Hw1 : within_window cb1 nows).
  { destruct Hw as [Hw | Hw]; [left; exact Hw | right].
    inversion Hw; subst. assumption. }
  split; intro Hlen.
  - destruct (fails_below_threshold nows cb1) as (I1 & I2 & _);
      cbn; auto; try lia.
  - destruct (fails_sixth nows cb1) as (I1 & _); cbn; auto.
Qed.

Lemma success_forgives_streak_witness :
  state_ (fails (breaker_of (succeed default_after_5_failures 6 6))
                [(7, 7); (8, 8); (9, 9); (10, 10); (11, 11)])
  = STATE_CLOSED.
Proof.
  refine (proj1 (proj1 (success_forgives_streak default_after_5_failures
                          6 6 [(7, 7); (8, 8); (9, 9); (10, 10); (11, 11)]
                          _ _ _) _)).
  - vm_compute. reflexivity.
  - vm_compute. reflexivity.
  - left. vm_compute. reflexivity.
  - cbn. lia.
Defined.

(** X17.  A custom trip predicate decides alone, and on the counts that
    already hold the failure being reported.  For a failure reported while
    Closed with the current token: if [ready_to_trip] answers [true] on
    [Counts::onFailure] of the counts, the breaker becomes Open in the next
    generation with zero counts, expiry [now + timeout] and one
    notification Closed to Open; if it answers [false], only the failure is
    tallied. *)
Theorem trip_predicate_decides : forall cb now tok cb1 trip,
  currentState cb now = (tok, STATE_CLOSED, cb1) ->
  ready_to_trip (settings_ cb) = Some trip ->
  afterRequest cb now tok false
  = Done
      (if trip (Counts.onFailure (counts_ cb1))
       then mkCircuitBreaker (settings_ cb1) STATE_OPEN
              (wrap64 (generation_ cb1 + 1)) Counts.zero
              (now + timeout (settings_ cb1))
              (if on_state_change (settings_ cb1)
               then (name (settings_ cb1), STATE_CLOSED, STATE_OPEN)
                      :: notified_ cb1
               else notified_ cb1)
       else with_counts (Counts.onFailure (counts_ cb1)) cb1).
Proof.
  intros cb now tok cb1 trip H Hrt.
  pose proof (currentState_eq _ _ _ _ _ H) as (_ & Hst & Hs).
  unfold afterRequest. rewrite H, Z.eqb_refl. cbn [negb].
  rewrite <- Hs in Hrt. destruct cb1 as [s st g c e n].
  simpl in Hst, Hrt. subst st.
  unfold onFailure. cbn [with_counts settings_ counts_ state_ generation_
                         expiry_ notified_].
  rewrite Hrt.
  destruct (trip (Counts.onFailure c)); [|reflexivity].
  run_breaker. split_ifs; reflexivity.
Qed.

Lemma trip_predicate_decides_witness :
  afterRequest
    (mkCircuitBreaker eager_settings STATE_CLOSED 1 (Counts.mk 1 0 0 0 0)
                      0 [])
    5 1 false
  = Done
      (mkCircuitBreaker eager_settings STATE_OPEN 2 Counts.zero
                        (5 + seconds 60)
                        [("cb"%string, STATE_CLOSED, STATE_OPEN)]).
Proof.
  exact (trip_predicate_decides
           (mkCircuitBreaker eager_settings STATE_CLOSED 1
                             (Counts.mk 1 0 0 0 0) 0 [])
           5 1
           (mkCircuitBreaker eager_settings STATE_CLOSED 1
                             (Counts.mk 1 0 0 0 0) 0 [])
           (fun _ => true) eq_refl eq_refl).
Defined.
